(** * FYP Analysis System: domain categorisation and similarity ranking

    A shallow embedding of the analyzer of [src/main.py] ([FYPAnalyzer]):
    its constructor, the per-record domain resolution of
    [categorize_by_domain], the keyword look-up of [get_project_domains] and
    the pair enumeration, thresholding, tiering and sorting of
    [calculate_similarity].

    Python strings are [String.string]; [str.lower] and [str.strip] are
    modelled on the ASCII range.  Similarity scores, thresholds and rounding
    are exact rationals ([Q]).  The two library calls of
    [calculate_similarity] (scikit-learn's TF-IDF + cosine matrix, and
    pandas' [sort_values]) are section variables: the first is any function
    from the list of texts to a matrix (or an exception), the second any
    function meeting the contract of a descending sort by score. *)

From Stdlib Require Import String Ascii List Bool Arith ZArith QArith Qround
  Sorting.Sorted Sorting.Permutation Lia Lqa.
Import ListNotations.
Open Scope string_scope.
Open Scope nat_scope.

(** ** Python string primitives *)

(** [str.lower] on one character (ASCII range). *)
Definition lower_char (c : ascii) : ascii :=
  let n := nat_of_ascii c in
  if (65 <=? n) && (n <=? 90) then ascii_of_nat (n + 32) else c.

(** [str.lower]. *)
Fixpoint lower (s : string) : string :=
  match s with
  | EmptyString => EmptyString
  | String c s' => String (lower_char c) (lower s')
  end.

(** The whitespace characters that [str.strip] removes (ASCII range):
    space, \t \n \v \f \r and the separators U+001C to U+001F. *)
Definition is_space (c : ascii) : bool :=
  let n := nat_of_ascii c in
  (n =? 32) || ((9 <=? n) && (n <=? 13)) || ((28 <=? n) && (n <=? 31)).

Fixpoint lstrip (s : string) : string :=
  match s with
  | EmptyString => EmptyString
  | String c s' => if is_space c then lstrip s' else s
  end.

Definition rev_string (s : string) : string :=
  string_of_list_ascii (rev (list_ascii_of_string s)).

(** [str.strip]. *)
Definition strip (s : string) : string :=
  rev_string (lstrip (rev_string (lstrip s))).

(** Python truthiness of a string. *)
Definition truthy (s : string) : bool :=
  negb (String.eqb s "").

(** Non-overlapping left-to-right count of a non-empty [sub] in [s]:
    [k] is the number of characters still covered by the last match. *)
Fixpoint count_skip (sub : string) (k : nat) (s : string) : nat :=
  match s with
  | EmptyString => 0
  | String _ s' =>
      match k with
      | S k' => count_skip sub k' s'
      | O => if String.prefix sub s
             then S (count_skip sub (String.length sub - 1) s')
             else count_skip sub 0 s'
      end
  end.

(** [s.count(sub)]: non-overlapping occurrences; an empty [sub] occurs
    [len(s) + 1] times. *)
Definition py_count (s sub : string) : nat :=
  if String.eqb sub "" then S (String.length s) else count_skip sub 0 s.

(** [sub in s]. *)
Fixpoint py_contains (s sub : string) : bool :=
  match s with
  | EmptyString => String.eqb sub ""
  | String _ s' => String.prefix sub s || py_contains s' sub
  end.

(** Decimal rendering of a [nat], for the positional ids [f"Project_{idx}"]. *)
Fixpoint digits_aux (fuel n : nat) (acc : string) : string :=
  match fuel with
  | O => acc
  | S fuel' =>
      let acc' := String (ascii_of_nat (48 + n mod 10)) acc in
      if n <? 10 then acc' else digits_aux fuel' (n / 10) acc'
  end.

Definition string_of_nat (n : nat) : string := digits_aux (S n) n "".

(** ** Python dict with string keys: an association list in insertion order *)

Section Dict.
Context {V : Type}.

(** [d[k] = v]: overwrite in place when [k] is a key, append otherwise. *)
Fixpoint dict_set (d : list (string * V)) (k : string) (v : V)
  : list (string * V) :=
  match d with
  | [] => [(k, v)]
  | (k', v') :: d' =>
      if String.eqb k k' then (k, v) :: d' else (k', v') :: dict_set d' k v
  end.

Fixpoint dict_get (d : list (string * V)) (k : string) : option V :=
  match d with
  | [] => None
  | (k', v') :: d' => if String.eqb k k' then Some v' else dict_get d' k
  end.
End Dict.

(** ** The domain taxonomy installed by [__init__] as [self.domain_keywords] *)

Definition Taxonomy := list (string * list string).

Definition DOMAIN_KEYWORDS : Taxonomy := [
  ("Artificial Intelligence & Machine Learning",
    ["ai"; "artificial intelligence"; "machine learning"; "ml"; "deep learning";
     "neural network"; "nlp"; "natural language processing"; "computer vision";
     "recommendation system"; "classification"; "prediction"; "clustering";
     "generative ai"; "llm"; "large language model"]);
  ("Web Development",
    ["web"; "website"; "web application"; "frontend"; "backend"; "html"; "css";
     "javascript"; "react"; "angular"; "vue"; "nodejs"; "django"; "flask";
     "api"; "rest"; "graphql"; "responsive"]);
  ("Mobile Development",
    ["mobile"; "android"; "ios"; "flutter"; "react native"; "kotlin"; "swift";
     "mobile app"; "smartphone"; "tablet"; "cross-platform"]);
  ("Cybersecurity",
    ["security"; "cybersecurity"; "encryption"; "authentication"; "penetration testing";
     "vulnerability"; "firewall"; "intrusion detection"; "malware"; "forensics";
     "risk assessment"; "compliance"; "iso 27001"; "gdpr"]);
  ("Data Science & Analytics",
    ["data science"; "analytics"; "big data"; "data mining"; "statistics";
     "visualization"; "dashboard"; "business intelligence"; "etl"; "data warehouse";
     "pandas"; "numpy"; "matplotlib"; "tableau"; "power bi"]);
  ("Internet of Things (IoT)",
    ["iot"; "internet of things"; "sensor"; "embedded"; "arduino"; "raspberry pi";
     "microcontroller"; "smart home"; "automation"; "monitoring"; "rfid"; "bluetooth"]);
  ("Blockchain & Cryptocurrency",
    ["blockchain"; "cryptocurrency"; "bitcoin"; "ethereum"; "smart contract";
     "decentralized"; "crypto"; "nft"; "defi"; "web3"]);
  ("Game Development",
    ["game"; "gaming"; "unity"; "unreal"; "game development"; "vr"; "ar";
     "virtual reality"; "augmented reality"; "3d"; "simulation"]);
  ("Healthcare & Medical",
    ["health"; "healthcare"; "medical"; "patient"; "diagnosis"; "telemedicine";
     "electronic health record"; "ehr"; "medical imaging"; "drug"; "pharmacy"]);
  ("E-commerce & Business",
    ["ecommerce"; "e-commerce"; "online shop"; "marketplace"; "inventory";
     "supply chain"; "crm"; "erp"; "business process"; "payment"]);
  ("Education & E-learning",
    ["education"; "learning"; "e-learning"; "lms"; "student"; "teacher";
     "course"; "quiz"; "examination"; "classroom"; "school"; "university"]);
  ("Social Media & Communication",
    ["social media"; "chat"; "messaging"; "communication"; "social network";
     "forum"; "blog"; "community"; "collaboration"]);
  ("Cloud Computing",
    ["cloud"; "aws"; "azure"; "google cloud"; "docker"; "kubernetes";
     "microservices"; "serverless"; "saas"; "paas"; "iaas"]);
  ("Computer Vision",
    ["computer vision"; "image processing"; "object detection"; "face recognition";
     "ocr"; "image classification"; "video analysis"; "opencv"]);
  ("Sports & Fitness",
    ["sports"; "fitness"; "exercise"; "training"; "coaching"; "athlete";
     "performance"; "cricket"; "football"; "basketball"; "workout"])
].

(** ** The analyzer object *)

(** Attributes of an [FYPAnalyzer] that the analysis reads.  [gemini_model]
    records whether [self.gemini_model] is set (not [None]). *)
Record FYPAnalyzer := {
  gemini_api_key : option string;
  gemini_model : bool;
  similarity_threshold : Q;
  domain_keywords : Taxonomy
}.

(** Outcome of a Python call: a value, or an exception escaping it. *)
Inductive PyResult (A : Type) : Type :=
| Ok (a : A)
| Raised (msg : string).
Arguments Ok {A} a.
Arguments Raised {A} msg.

(** [FYPAnalyzer.__init__(gemini_api_key)].  [GEMINI_AVAILABLE] is the
    import-time flag; [configure_ok] says whether [genai.configure] and
    [genai.GenerativeModel] return normally (an exception there is caught
    and leaves [gemini_model = None]).  No statement of the body raises. *)
Definition FYPAnalyzer_init (GEMINI_AVAILABLE configure_ok : bool)
    (key : option string) : PyResult FYPAnalyzer :=
  let key_truthy := match key with Some k => truthy k | None => false end in
  let model := if key_truthy && GEMINI_AVAILABLE then configure_ok else false in
  Ok {| gemini_api_key := key;
        gemini_model := model;
        similarity_threshold := 3 # 10;
        domain_keywords := DOMAIN_KEYWORDS |}.

(** Attribute assignments a caller makes after construction, as
    [demo.py] ([analyzer.similarity_threshold = 0.25]) and [web_app.py] do. *)
Definition set_similarity_threshold (a : FYPAnalyzer) (t : Q) : FYPAnalyzer :=
  {| gemini_api_key := gemini_api_key a; gemini_model := gemini_model a;
     similarity_threshold := t; domain_keywords := domain_keywords a |}.

Definition set_domain_keywords (a : FYPAnalyzer) (tax : Taxonomy) : FYPAnalyzer :=
  {| gemini_api_key := gemini_api_key a; gemini_model := gemini_model a;
     similarity_threshold := similarity_threshold a; domain_keywords := tax |}.

(** The only way the code offers to obtain an analyzer with a given taxonomy
    and threshold: construct it, then assign the two attributes. *)
Definition construct_configured (GEMINI_AVAILABLE configure_ok : bool)
    (key : option string) (tax : Taxonomy) (t : Q) : PyResult FYPAnalyzer :=
  match FYPAnalyzer_init GEMINI_AVAILABLE configure_ok key with
  | Ok a => Ok (set_similarity_threshold (set_domain_keywords a tax) t)
  | Raised m => Raised m
  end.

(** ** Input table *)

(** One row after [load_data]: [project_title]/[project_scope] are filled
    with [""] when missing, [cleaned_*] are their [clean_text] images;
    [primary_domain] is [None] for a NaN cell. *)
Record Row := {
  short_title : string;
  project_title : string;
  project_scope : string;
  cleaned_title : string;
  cleaned_scope : string;
  primary_domain : option string
}.

(** The frame: which optional columns exist, and the rows (RangeIndex). *)
Record DataFrame := {
  has_short_title : bool;
  has_primary_domain : bool;
  rows : list Row
}.

(** [row.get('short_title', f"Project_{idx}")]. *)
Definition row_project_id (df : DataFrame) (idx : nat) (row : Row) : string :=
  if has_short_title df then short_title row
  else "Project_" ++ string_of_nat idx.

(** ** The parsed Gemini answer *)

(** One entry of ["domains"]; a missing key is [None] ([.get] default). *)
Record DomainInfo := {
  di_name : option string;
  di_confidence : option Z;
  di_reasoning : option string
}.

(** The parsed JSON object; [gr_other_keys] counts its remaining keys
    (["summary"], ...), which only matter for its truthiness. *)
Record GeminiResult := {
  gr_domains : option (list DomainInfo);
  gr_primary_domain : option string;
  gr_other_keys : nat
}.

(** [if gemini_result:] — [None] and the empty dict are falsy. *)
Definition gemini_truthy (g : option GeminiResult) : bool :=
  match g with
  | None => false
  | Some r =>
      match gr_domains r, gr_primary_domain r with
      | None, None => 0 <? gr_other_keys r
      | _, _ => true
      end
  end.

(** ** Domain assignment of one record *)

Inductive Evidence :=
| Reasoning (r : string)
| Keywords (ks : list string).

(** A value of [confidence_scores]: ['score'], ['reasoning'] or ['keywords'],
    and ['method']. *)
Record ConfEntry := {
  ce_score : Z;
  ce_evidence : Evidence;
  ce_method : string
}.

Definition Conf := list (string * ConfEntry).

(** [(matched_domains, confidence_scores)] while the loop body runs. *)
Definition Acc := (list string * Conf)%type.

Record DomainResult := {
  project_id : string;
  dr_project_title : string;
  dr_domains : list string;
  confidence_scores : Conf;
  dr_primary_domain : string;
  categorization_method : string
}.

Definition opt_default {A} (d : A) (o : option A) : A :=
  match o with Some x => x | None => d end.

Definition is_nil {A} (l : list A) : bool :=
  match l with [] => true | _ => false end.

(** Lines 291-302: one entry of ["domains"]. *)
Definition gemini_domain_step (acc : Acc) (di : DomainInfo) : Acc :=
  let '(matched, conf) := acc in
  let domain_name := opt_default "" (di_name di) in
  let confidence := opt_default 0%Z (di_confidence di) in
  let reasoning := opt_default "" (di_reasoning di) in
  if truthy domain_name && (6 <=? confidence)%Z then
    ((matched ++ [domain_name])%list,
     dict_set conf domain_name
       {| ce_score := confidence; ce_evidence := Reasoning reasoning;
          ce_method := "gemini_ai" |})
  else (matched, conf).

(** Lines 289-312: the AI branch, run only when [gemini_result] is truthy. *)
Definition gemini_stage (gemini_result : option GeminiResult) (acc : Acc) : Acc :=
  match gemini_result with
  | Some g =>
      if gemini_truthy gemini_result then
        let '(matched, conf) :=
          fold_left gemini_domain_step (opt_default [] (gr_domains g)) acc in
        let primary := opt_default "" (gr_primary_domain g) in
        if truthy primary && negb (existsb (String.eqb primary) matched) then
          (primary :: matched,
           dict_set conf primary
             {| ce_score := 8;
                ce_evidence := Reasoning "Primary domain identified by Gemini AI";
                ce_method := "gemini_ai" |})
        else (matched, conf)
      else acc
  | None => acc
  end.

(** Lines 322-329: score and evidence of one domain. *)
Definition keyword_score (combined_text : string) (keywords : list string)
    : nat * list string :=
  fold_left
    (fun '(score, matched_keywords) keyword =>
       let count := py_count combined_text (lower keyword) in
       if 0 <? count then (score + count, (matched_keywords ++ [keyword])%list)
       else (score, matched_keywords))
    keywords (0, []).

(** Lines 321-337: one domain of the taxonomy. *)
Definition keyword_domain_step (combined_text : string) (acc : Acc)
    (dk : string * list string) : Acc :=
  let '(matched, conf) := acc in
  let '(domain, keywords) := dk in
  let '(score, matched_keywords) := keyword_score combined_text keywords in
  if 0 <? score then
    ((matched ++ [domain])%list,
     dict_set conf domain
       {| ce_score := Z.of_nat score; ce_evidence := Keywords matched_keywords;
          ce_method := "keyword_matching" |})
  else (matched, conf).

(** Lines 316-321: the concatenated text searched by the fallback. *)
Definition keyword_text (title scope : string) : string :=
  lower title ++ " " ++ lower scope.

Definition keyword_stage (tax : Taxonomy) (title scope : string) (acc : Acc) : Acc :=
  fold_left (keyword_domain_step (keyword_text title scope)) tax acc.

(** Lines 340-348: the manual label, if the column exists. *)
Definition existing_stage (df : DataFrame) (row : Row) (acc : Acc) : Acc :=
  let '(matched, conf) := acc in
  if is_nil matched && has_primary_domain df then
    match primary_domain row with
    | Some existing_domain =>
        if truthy (strip existing_domain) then
          ((matched ++ [strip existing_domain])%list,
           dict_set conf (strip existing_domain)
             {| ce_score := 1; ce_evidence := Keywords ["manual_categorization"];
                ce_method := "existing_data" |})
        else (matched, conf)
    | None => (matched, conf)
    end
  else (matched, conf).

(** Lines 351-357. *)
Definition default_stage (acc : Acc) : Acc :=
  let '(matched, conf) := acc in
  if is_nil matched then
    (["Other"],
     dict_set conf "Other"
       {| ce_score := 1; ce_evidence := Keywords []; ce_method := "default" |})
  else (matched, conf).

Section Categorize.

(** [self.gemini_model.generate_content(prompt)] followed by the fence
    stripping and [json.loads] of [categorize_with_gemini]; [None] when
    any of them raises (both handlers return [None]). *)
Variable generate_content : string -> string -> option GeminiResult.

(** [categorize_with_gemini(project_title, project_scope)]. *)
Definition categorize_with_gemini (a : FYPAnalyzer) (title scope : string)
    : option GeminiResult :=
  if gemini_model a then generate_content title scope else None.

(** Lines 281-284. *)
Definition gemini_result_of (a : FYPAnalyzer) (row : Row) : option GeminiResult :=
  if gemini_model a && truthy (project_title row) && truthy (project_scope row)
  then categorize_with_gemini a (project_title row) (project_scope row)
  else None.

(** Lines 286-357: [(matched_domains, confidence_scores)] of one row. *)
Definition resolve_domains (a : FYPAnalyzer) (df : DataFrame) (row : Row) : Acc :=
  let acc0 := gemini_stage (gemini_result_of a row) ([], []) in
  let acc1 :=
    if is_nil (fst acc0) then
      existing_stage df row
        (keyword_stage (domain_keywords a) (project_title row) (project_scope row) acc0)
    else acc0 in
  default_stage acc1.

(** The loop body of [categorize_by_domain] (lines 276-366). *)
Definition categorize_row (a : FYPAnalyzer) (df : DataFrame) (idx : nat) (row : Row)
    : DomainResult :=
  let gemini_result := gemini_result_of a row in
  let '(matched, conf) := resolve_domains a df row in
  {| project_id := row_project_id df idx row;
     dr_project_title := project_title row;
     dr_domains := matched;
     confidence_scores := conf;
     dr_primary_domain := match matched with d :: _ => d | [] => "Other" end;
     categorization_method :=
       if gemini_truthy gemini_result then "gemini_ai" else "keyword_matching" |}.

Fixpoint categorize_rows (a : FYPAnalyzer) (df : DataFrame) (idx : nat)
    (rs : list Row) : list DomainResult :=
  match rs with
  | [] => []
  | r :: rs' => categorize_row a df idx r :: categorize_rows a df (S idx) rs'
  end.

(** [categorize_by_domain(df)]. *)
Definition categorize_by_domain (a : FYPAnalyzer) (df : DataFrame) : list DomainResult :=
  categorize_rows a df 0 (rows df).

(** The step of the resolution chain whose output [categorize_row]
    keeps: the first of AI, keywords, manual label that yields a domain,
    else the default. *)
Inductive ResolutionStep := StepAI | StepKeyword | StepExistingLabel | StepDefault.

Definition resolution_step (a : FYPAnalyzer) (df : DataFrame) (row : Row)
    : ResolutionStep :=
  let acc0 := gemini_stage (gemini_result_of a row) ([], []) in
  if negb (is_nil (fst acc0)) then StepAI
  else
    let acck := keyword_stage (domain_keywords a) (project_title row) (project_scope row) acc0 in
    if negb (is_nil (fst acck)) then StepKeyword
    else if negb (is_nil (fst (existing_stage df row acck))) then StepExistingLabel
    else StepDefault.

End Categorize.

(** The method tag the code itself writes into [confidence_scores] for
    each step. *)
Definition step_method_tag (s : ResolutionStep) : string :=
  match s with
  | StepAI => "gemini_ai"
  | StepKeyword => "keyword_matching"
  | StepExistingLabel => "existing_data"
  | StepDefault => "default"
  end.

(** The keyword count the specification describes: every position at
    which [sub] starts, overlapping occurrences included. *)
Fixpoint count_overlapping (s sub : string) : nat :=
  match s with
  | EmptyString => 0
  | String _ s' =>
      (if String.prefix sub s then 1 else 0) + count_overlapping s' sub
  end.

Definition spec_keyword_score (text : string) (keywords : list string) : nat :=
  list_sum (map (fun kw => count_overlapping text (lower kw)) keywords).

(** ** Similarity *)

(** [a > b] on the model's exact scores. *)
Definition qgt (a b : Q) : bool := negb (Qle_bool a b).

(** Round half to even of a rational to an integer. *)
Definition round_half_even (q : Q) : Z :=
  let f := Qfloor q in
  match Qcompare (q - inject_Z f) (1 # 2) with
  | Lt => f
  | Gt => (f + 1)%Z
  | Eq => if Z.even f then f else (f + 1)%Z
  end.

(** [round(similarity_score, 3)] (NumPy rounds [x * 1000] half to even). *)
Definition round3 (q : Q) : Q := round_half_even (q * 1000) # 1000.

(** Lines 438-445: the similarity level of a score. *)
Definition similarity_level_of (s : Q) : string :=
  if qgt s (7 # 10) then "Very High"
  else if qgt s (1 # 2) then "High"
  else if qgt s (3 # 10) then "Medium"
  else "Low".

(** One row of the similarity table (the [explanation] column, free text
    built by [generate_similarity_explanation], is left out). *)
Record SimPair := {
  project_1_id : string;
  project_2_id : string;
  similarity_score : Q;
  similarity_level : string;
  overlapping_domains : list string
}.

(** Lines 395-402: [f"{title} {scope}"] of the cleaned columns. *)
Definition combined_text (row : Row) : string :=
  cleaned_title row ++ " " ++ cleaned_scope row.

Fixpoint similarity_inputs_from (df : DataFrame) (idx : nat) (rs : list Row)
    : list (string * string) :=
  match rs with
  | [] => []
  | r :: rs' =>
      if truthy (strip (combined_text r))
      then (combined_text r, row_project_id df idx r) :: similarity_inputs_from df (S idx) rs'
      else similarity_inputs_from df (S idx) rs'
  end.

(** [(texts[k], project_ids[k])] for every row with a non-blank text. *)
Definition similarity_inputs (df : DataFrame) : list (string * string) :=
  similarity_inputs_from df 0 (rows df).

(** Lines 492-501: the first domain one of whose keywords occurs. *)
Fixpoint first_keyword_domain (tax : Taxonomy) (text : string) : list string :=
  match tax with
  | [] => ["Other"]
  | (domain, keywords) :: tax' =>
      if existsb (fun keyword => py_contains text (lower keyword)) keywords
      then [domain] else first_keyword_domain tax' text
  end.

(** [get_project_domains(project_id, df)]; [None] is the [KeyError] of
    [df[False]] when there is no [short_title] column. *)
Definition get_project_domains (a : FYPAnalyzer) (project_id : string) (df : DataFrame)
    : option (list string) :=
  if has_short_title df then
    match find (fun r => String.eqb (short_title r) project_id) (rows df) with
    | None => Some []
    | Some r => Some (first_keyword_domain (domain_keywords a) (combined_text r))
    end
  else None.

(** [set(l1) & set(l2)], listed in the order of [l1] without repeats. *)
Fixpoint set_inter (l1 l2 : list string) : list string :=
  match l1 with
  | [] => []
  | x :: l1' =>
      let rest := set_inter l1' l2 in
      if existsb (String.eqb x) l2 && negb (existsb (String.eqb x) rest)
      then x :: rest else rest
  end.

(** Lines 426-427: the index pairs [i < j] in loop order. *)
Definition index_pairs (n : nat) : list (nat * nat) :=
  flat_map (fun i => map (fun j => (i, j)) (seq (S i) (n - S i))) (seq 0 n).

(** The descending-by-score order requested from [sort_values]. *)
Definition score_desc (p q : SimPair) : Prop :=
  (similarity_score q <= similarity_score p)%Q.

(** What pandas guarantees for [sort_values('similarity_score',
    ascending=False)] with its default [kind='quicksort']: a permutation
    of the rows in non-increasing score order; the order of equal scores is
    not specified (the sort is not stable). *)
Definition sort_contract (sort : list SimPair -> list SimPair) : Prop :=
  forall l, Permutation l (sort l) /\ Sorted score_desc (sort l).

Section Similarity.

(** [cosine_similarity(TfidfVectorizer(...).fit_transform(texts))] as a
    function of the indices; [None] when the vectorizer raises. *)
Variable cosine_matrix : list string -> option (nat -> nat -> Q).

(** [results_df.sort_values('similarity_score', ascending=False)]. *)
Variable sort_by_score_desc : list SimPair -> list SimPair.

(** Lines 428-461 for one index pair [(i, j)]. *)
Definition pair_row (a : FYPAnalyzer) (df : DataFrame) (project_ids : list string)
    (M : nat -> nat -> Q) (i j : nat) : option (option SimPair) :=
  let similarity_score := M i j in
  if qgt similarity_score (similarity_threshold a) then
    let id1 := nth i project_ids "" in
    let id2 := nth j project_ids "" in
    match get_project_domains a id1 df, get_project_domains a id2 df with
    | Some proj1_domains, Some proj2_domains =>
        Some (Some {| project_1_id := id1; project_2_id := id2;
                      similarity_score := round3 similarity_score;
                      similarity_level := similarity_level_of similarity_score;
                      overlapping_domains := set_inter proj1_domains proj2_domains |})
    | _, _ => None
    end
  else Some None.

(** The double loop; [None] when an exception escapes it. *)
Fixpoint collect_pairs (a : FYPAnalyzer) (df : DataFrame) (project_ids : list string)
    (M : nat -> nat -> Q) (ijs : list (nat * nat)) : option (list SimPair) :=
  match ijs with
  | [] => Some []
  | (i, j) :: ijs' =>
      match pair_row a df project_ids M i j, collect_pairs a df project_ids M ijs' with
      | Some (Some p), Some ps => Some (p :: ps)
      | Some None, Some ps => Some ps
      | _, _ => None
      end
  end.

(** [similar_pairs] in discovery order, or [None] when the [try] block
    raises. *)
Definition discovered_pairs (a : FYPAnalyzer) (df : DataFrame) (texts project_ids : list string)
    : option (list SimPair) :=
  match cosine_matrix texts with
  | None => None
  | Some M => collect_pairs a df project_ids M (index_pairs (length project_ids))
  end.

(** [calculate_similarity(df)]; an empty frame is the empty list. *)
Definition calculate_similarity (a : FYPAnalyzer) (df : DataFrame) : list SimPair :=
  let inputs := similarity_inputs df in
  let texts := map fst inputs in
  let project_ids := map snd inputs in
  if length texts <? 2 then []
  else
    match discovered_pairs a df texts project_ids with
    | None => []
    | Some similar_pairs =>
        if is_nil similar_pairs then [] else sort_by_score_desc similar_pairs
    end.

End Similarity.

(** ** Two sorts meeting [sort_contract] *)

Fixpoint insert_by (before : SimPair -> SimPair -> bool) (x : SimPair)
    (l : list SimPair) : list SimPair :=
  match l with
  | [] => [x]
  | y :: l' => if before x y then x :: l else y :: insert_by before x l'
  end.

Fixpoint isort_by (before : SimPair -> SimPair -> bool) (l : list SimPair)
    : list SimPair :=
  match l with
  | [] => []
  | x :: l' => insert_by before x (isort_by before l')
  end.

(** Stable: an element goes before the later ones of equal score.  This is
    the order the specification asks for (ties in discovery order). *)
Definition stable_desc_sort : list SimPair -> list SimPair :=
  isort_by (fun x y => Qle_bool (similarity_score y) (similarity_score x)).

(** ** The sort pandas runs *)

(** [results_df.sort_values('similarity_score', ascending=False)] with the
    default [kind='quicksort'] calls pandas' [nargsort], which reverses the
    scores, argsorts them with numpy's quicksort and reverses the indexer.
    Below is numpy's portable [aquicksort_] (npysort/quicksort.cpp) with
    its [aheapsort_] fallback, over the index array [tosort]; on x86 CPUs
    where numpy dispatches the argsort of doubles to its SIMD sort, that
    sort runs instead.  The loops that are not structural carry a fuel
    bound and return [None] when it runs out. *)

(** [Tag::less] of [npy::double_tag] on scores that are not NaN. *)
Definition np_less (x y : Q) : bool := qgt y x.

Fixpoint list_set {A} (l : list A) (k : nat) (x : A) : list A :=
  match l, k with
  | [], _ => []
  | _ :: l', 0 => x :: l'
  | y :: l', S k' => y :: list_set l' k' x
  end.

(** [INTP_SWAP(tosort[i], tosort[j])]. *)
Definition intp_swap (t : list nat) (i j : nat) : list nat :=
  list_set (list_set t i (nth j t 0)) j (nth i t 0).

(** [v[tosort[k]]]. *)
Definition v_at (v : list Q) (t : list nat) (k : nat) : Q := nth (nth k t 0) v 0%Q.

Definition SMALL_QUICKSORT : nat := 16.

(** [do { ++pi; } while (Tag::less(v[*pi], vp));] *)
Fixpoint scan_up (fuel : nat) (v : list Q) (t : list nat) (vp : Q) (pi : nat)
    : option nat :=
  match fuel with
  | 0 => None
  | S f => if np_less (v_at v t (S pi)) vp then scan_up f v t vp (S pi) else Some (S pi)
  end.

(** [do { --pj; } while (Tag::less(vp, v[*pj]));] *)
Fixpoint scan_down (fuel : nat) (v : list Q) (t : list nat) (vp : Q) (pj : nat)
    : option nat :=
  match fuel with
  | 0 => None
  | S f => if np_less vp (v_at v t (pred pj)) then scan_down f v t vp (pred pj)
           else Some (pred pj)
  end.

(** The [for (;;)] of the partition: the final [tosort] and [pi]. *)
Fixpoint partition_loop (fuel : nat) (v : list Q) (vp : Q) (t : list nat) (pi pj : nat)
    : option (list nat * nat) :=
  match fuel with
  | 0 => None
  | S f =>
      match scan_up fuel v t vp pi, scan_down fuel v t vp pj with
      | Some pi', Some pj' =>
          if pj' <=? pi' then Some (t, pi')
          else partition_loop f v vp (intp_swap t pi' pj') pi' pj'
      | _, _ => None
      end
  end.

(** One median-of-3 partition of [tosort[pl..pr]]: the new [tosort] and
    the pivot's position [pi]. *)
Definition partition_step (fuel : nat) (v : list Q) (t : list nat) (pl pr : nat)
    : option (list nat * nat) :=
  let pm := pl + Nat.div2 (pr - pl) in
  let t := if np_less (v_at v t pm) (v_at v t pl) then intp_swap t pm pl else t in
  let t := if np_less (v_at v t pr) (v_at v t pm) then intp_swap t pr pm else t in
  let t := if np_less (v_at v t pm) (v_at v t pl) then intp_swap t pm pl else t in
  let vp := v_at v t pm in
  let t := intp_swap t pm (pr - 1) in
  match partition_loop fuel v vp t pl (pr - 1) with
  | Some (t, pi) => Some (intp_swap t pi (pr - 1), pi)
  | None => None
  end.

(** [while ((pr - pl) > SMALL_QUICKSORT) { ... }], pushing the larger part
    with the decremented depth. *)
Fixpoint partition_phase (fuel : nat) (v : list Q) (t : list nat) (pl pr : nat)
    (stack : list (nat * nat * Z)) (cdepth : Z)
    : option (list nat * nat * nat * list (nat * nat * Z)) :=
  match fuel with
  | 0 => None
  | S f =>
      if SMALL_QUICKSORT <? pr - pl then
        match partition_step fuel v t pl pr with
        | None => None
        | Some (t, pi) =>
            let cdepth := (cdepth - 1)%Z in
            if pi - pl <? pr - pi
            then partition_phase f v t pl (pi - 1) ((S pi, pr, cdepth) :: stack) cdepth
            else partition_phase f v t (S pi) pr ((pl, pi - 1, cdepth) :: stack) cdepth
        end
      else Some (t, pl, pr, stack)
  end.

(** [while (pj > pl && Tag::less(vp, v[*pk])) { *pj-- = *pk--; }] with
    [pj = pl + k]: the new [tosort] and the final [pj]. *)
Fixpoint insert_shift (v : list Q) (vp : Q) (t : list nat) (pl k : nat) : list nat * nat :=
  match k with
  | 0 => (t, pl)
  | S k' =>
      if np_less vp (v_at v t (pl + k'))
      then insert_shift v vp (list_set t (pl + k) (nth (pl + k') t 0)) pl k'
      else (t, pl + k)
  end.

(** The insertion sort of [tosort[pl..pr]]. *)
Definition insertion_sort (v : list Q) (t : list nat) (pl pr : nat) : list nat :=
  fold_left
    (fun t pi =>
       let vi := nth pi t 0 in
       let '(t, pj) := insert_shift v (nth vi v 0%Q) t pl (pi - pl) in
       list_set t pj vi)
    (seq (S pl) (pr - pl)) t.

(** The sift-down loop of [aheapsort_] on [a = tosort + off - 1] of size
    [n], for the value [vtmp], from [i], [j]: the new [tosort] and [i]. *)
Fixpoint sift (fuel : nat) (v : list Q) (t : list nat) (off n : nat) (vtmp : Q) (i j : nat)
    : option (list nat * nat) :=
  match fuel with
  | 0 => None
  | S f =>
      if j <=? n then
        let j := if (j <? n) && np_less (v_at v t (off + j - 1)) (v_at v t (off + j))
                 then S j else j in
        if np_less vtmp (v_at v t (off + j - 1))
        then sift f v (list_set t (off + i - 1) (nth (off + j - 1) t 0)) off n vtmp j (j + j)
        else Some (t, i)
      else Some (t, i)
  end.

(** [for (l = n >> 1; l > 0; --l)]: the heap construction. *)
Fixpoint heap_build (fuel : nat) (v : list Q) (t : list nat) (off n l : nat)
    : option (list nat) :=
  match l with
  | 0 => Some t
  | S l' =>
      let tmp := nth (off + l - 1) t 0 in
      match sift fuel v t off n (nth tmp v 0%Q) l (l + l) with
      | Some (t, i) => heap_build fuel v (list_set t (off + i - 1) tmp) off n l'
      | None => None
      end
  end.

(** [for (; n > 1;)]: the extraction. *)
Fixpoint heap_extract (fuel : nat) (v : list Q) (t : list nat) (off n : nat)
    : option (list nat) :=
  match n with
  | 0 | 1 => Some t
  | S n' =>
      let tmp := nth (off + n - 1) t 0 in
      let t := list_set t (off + n - 1) (nth off t 0) in
      match sift fuel v t off n' (nth tmp v 0%Q) 1 2 with
      | Some (t, i) => heap_extract fuel v (list_set t (off + i - 1) tmp) off n'
      | None => None
      end
  end.

(** [aheapsort_(vv, pl, n)] on [tosort[off..off+n-1]]. *)
Definition aheapsort (fuel : nat) (v : list Q) (t : list nat) (off n : nat)
    : option (list nat) :=
  match heap_build fuel v t off n (Nat.div2 n) with
  | Some t => heap_extract fuel v t off n
  | None => None
  end.

(** The outer [for (;;)] of [aquicksort_]: heapsort when the depth budget
    is exhausted, else partition and insertion sort, then pop the stack. *)
Fixpoint aquicksort_loop (fuel : nat) (v : list Q) (t : list nat) (pl pr : nat)
    (stack : list (nat * nat * Z)) (cdepth : Z) : option (list nat) :=
  match fuel with
  | 0 => None
  | S f =>
      let r :=
        if (cdepth <? 0)%Z then
          match aheapsort fuel v t pl (S (pr - pl)) with
          | Some t => Some (t, stack)
          | None => None
          end
        else
          match partition_phase fuel v t pl pr stack cdepth with
          | Some (t, pl, pr, stack) => Some (insertion_sort v t pl pr, stack)
          | None => None
          end in
      match r with
      | None => None
      | Some (t, []) => Some t
      | Some (t, (pl, pr, d) :: stack) => aquicksort_loop f v t pl pr stack d
      end
  end.

(** [np.argsort(v, kind='quicksort')]: [tosort] starts as [0..n-1] and the
    depth budget is [2 * npy_get_msb(n)]. *)
Definition aquicksort (v : list Q) : option (list nat) :=
  let n := length v in
  let fuel := S n * S n in
  aquicksort_loop fuel v (seq 0 n) 0 (n - 1) [] (Z.of_nat (2 * Nat.log2 n)).

(** pandas' [nargsort(items, kind='quicksort', ascending=False)] on items
    without NaN. *)
Definition nargsort_desc (items : list Q) : option (list nat) :=
  let non_nan_idx := rev (seq 0 (length items)) in
  let non_nans := rev items in
  match aquicksort non_nans with
  | Some perm => Some (rev (map (fun k => nth k non_nan_idx 0) perm))
  | None => None
  end.

(** The rows of [results_df] taken in the order of the indexer. *)
Definition pandas_sort_desc (l : list SimPair) : list SimPair :=
  match l, nargsort_desc (map similarity_score l) with
  | d :: _, Some ind => map (fun k => nth k l d) ind
  | _, _ => l
  end.

(** ** Concrete inputs *)

Definition mk_row (id title scope : string) (label : option string) : Row :=
  {| short_title := id; project_title := title; project_scope := scope;
     cleaned_title := lower title; cleaned_scope := lower scope;
     primary_domain := label |}.

Definition mk_df (rs : list Row) : DataFrame :=
  {| has_short_title := true; has_primary_domain := true; rows := rs |}.

(** An analyzer built without an API key ([FYPAnalyzer()]). *)
Definition plain_analyzer : FYPAnalyzer :=
  {| gemini_api_key := None; gemini_model := false;
     similarity_threshold := 3 # 10; domain_keywords := DOMAIN_KEYWORDS |}.

(** An analyzer whose Gemini model was initialised. *)
Definition gemini_analyzer : FYPAnalyzer :=
  {| gemini_api_key := Some "key"; gemini_model := true;
     similarity_threshold := 3 # 10; domain_keywords := DOMAIN_KEYWORDS |}.

Definition no_gemini : string -> string -> option GeminiResult := fun _ _ => None.

(** A Gemini answer with the given ["domains"] and ["primary_domain"]. *)
Definition gemini_answer (ds : list (string * Z)) (primary : string)
    : string -> string -> option GeminiResult :=
  fun _ _ =>
    Some {| gr_domains :=
              Some (map (fun '(n, c) =>
                {| di_name := Some n; di_confidence := Some c;
                   di_reasoning := Some "fits" |}) ds);
            gr_primary_domain := Some primary;
            gr_other_keys := 1 |}.

(** A cosine matrix given by its upper triangle. *)
Definition cos_of (entries : list (nat * nat * Q)) : nat -> nat -> Q :=
  fun i j =>
    match find (fun '(i', j', _) => (i' =? i) && (j' =? j)) entries with
    | Some (_, _, s) => s
    | None => 0%Q
    end.

(** ** Text cleaning and loading *)

(** A spreadsheet cell as [pd.read_excel] delivers it. *)
Inductive Cell :=
| CellStr (s : string)
| CellNaN
| CellNum (z : Z).

(** The characters the regular expression [\s] matches (ASCII range):
    the same as those of [str.strip]. *)
Definition re_space (c : ascii) : bool :=
  let n := nat_of_ascii c in
  is_space c || ((28 <=? n) && (n <=? 31)).

(** [re.sub(r'\s+', ' ', text)]; [prev_space] says whether the last
    character written is the space that replaced a run. *)
Fixpoint collapse_ws (prev_space : bool) (s : string) : string :=
  match s with
  | EmptyString => EmptyString
  | String c s' =>
      if re_space c then
        if prev_space then collapse_ws true s' else String " " (collapse_ws true s')
      else String c (collapse_ws false s')
  end.

(** Lines 179-183 on a [str]. *)
Definition clean_str (text : string) : string :=
  lower (strip (collapse_ws false text)).

(** [clean_text(text)]: NaN and non-strings give [""]. *)
Definition clean_text (v : Cell) : string :=
  match v with
  | CellStr text => clean_str text
  | _ => ""
  end.

(** One row of [load_data] (lines 149-156): the text cells are
    [fillna('')]-ed ([None] is NaN), then cleaned. *)
Definition load_row (short : string) (title scope label : option string) : Row :=
  let project_title := opt_default "" title in
  let project_scope := opt_default "" scope in
  {| short_title := short;
     project_title := project_title;
     project_scope := project_scope;
     cleaned_title := clean_text (CellStr project_title);
     cleaned_scope := clean_text (CellStr project_scope);
     primary_domain := label |}.

(** Lines 136-143, in the dict's insertion order. *)
Definition column_mapping : list (string * string) := [
  ("Project Title", "project_title");
  ("Project Scope", "project_scope");
  ("Short_Title", "short_title");
  ("Project Short Title", "short_title");
  ("Categorize the primary domain of project", "primary_domain");
  ("Sub-category of the project", "sub_category")
].

(** The body of the loop of lines 145-147, on the columns of the frame by
    name in column order: [if old_col in df.columns: df[new_col] = df[old_col]]. *)
Definition rename_column {V} (df : list (string * V)) (m : string * string)
    : list (string * V) :=
  let '(old_col, new_col) := m in
  match dict_get df old_col with
  | Some col => dict_set df new_col col
  | None => df
  end.

Definition standardize_columns {V} (columns : list (string * V)) : list (string * V) :=
  fold_left rename_column column_mapping columns.

Fixpoint all_chars (f : ascii -> bool) (s : string) : bool :=
  match s with
  | EmptyString => true
  | String c s' => f c && all_chars f s'
  end.

(** [str.rstrip], written directly. *)
Fixpoint rstrip (s : string) : string :=
  match s with
  | EmptyString => EmptyString
  | String c s' =>
      let r := rstrip s' in
      if is_space c && negb (truthy r) then EmptyString else String c r
  end.

(** No whitespace other than single spaces: [prev_space] says whether the
    previous character was a space. *)
Fixpoint single_spaced (prev_space : bool) (s : string) : bool :=
  match s with
  | EmptyString => true
  | String c s' =>
      if re_space c
      then Ascii.eqb c " " && negb prev_space && single_spaced true s'
      else single_spaced false s'
  end.

Definition is_upper (c : ascii) : bool :=
  let n := nat_of_ascii c in (65 <=? n) && (n <=? 90).

(** ** Markdown fences around the Gemini answer *)

(** [s.split(sep)] for a non-empty [sep]: [cur] is the piece being read,
    [k] the number of characters still covered by the last separator. *)
Fixpoint split_aux (sep : string) (k : nat) (cur : string) (s : string) : list string :=
  match s with
  | EmptyString => [cur]
  | String c s' =>
      match k with
      | S k' => split_aux sep k' cur s'
      | O =>
          if String.prefix sep s then cur :: split_aux sep (String.length sep - 1) "" s'
          else split_aux sep 0 (cur ++ String c EmptyString) s'
      end
  end.

Definition py_split (s sep : string) : list string := split_aux sep 0 "" s.

(** Lines 241-244.  In each branch the separator occurs, so the split has
    at least two pieces and the indexing does not raise. *)
Definition strip_code_fence (response_text : string) : string :=
  if py_contains response_text "```json" then
    strip (nth 0 (py_split (nth 1 (py_split response_text "```json") "") "```") "")
  else if py_contains response_text "```" then
    strip (nth 1 (py_split response_text "```") "")
  else response_text.

Fixpoint no_backtick (s : string) : bool :=
  match s with
  | EmptyString => true
  | String c s' => negb (Ascii.eqb c "`") && no_backtick s'
  end.

(** ** Output workbooks *)

(** [\w] on the ASCII range: letters, digits and the underscore. *)
Definition is_word_char (c : ascii) : bool :=
  let n := nat_of_ascii c in
  ((48 <=? n) && (n <=? 57)) || ((65 <=? n) && (n <=? 90))
  || ((97 <=? n) && (n <=? 122)) || (n =? 95).

Fixpoint filter_string (f : ascii -> bool) (s : string) : string :=
  match s with
  | EmptyString => EmptyString
  | String c s' => if f c then String c (filter_string f s') else filter_string f s'
  end.

(** Line 578: [re.sub(r'[^\w\s-]', '', domain)[:31]]. *)
Definition domain_sheet_name (domain : string) : string :=
  substring 0 31
    (filter_string (fun c => is_word_char c || re_space c || Ascii.eqb c "-") domain).

(** Characters Excel refuses in a sheet name. *)
Definition excel_forbidden (c : ascii) : bool :=
  existsb (Ascii.eqb c) ["["; "]"; ":"; "*"; "?"; "/"; "\"]%char.

(** Lines 602-608: the level sheets, in this order. *)
Definition similarity_levels : list string := ["Very High"; "High"; "Medium"; "Low"].

Definition level_sheet (pairs : list SimPair) (level : string) : list SimPair :=
  filter (fun p => String.eqb (similarity_level p) level) pairs.

(** Position of [x] in [l] ([length l] when absent). *)
Fixpoint list_index (x : string) (l : list string) : nat :=
  match l with
  | [] => 0
  | y :: l' => if String.eqb x y then 0 else S (list_index x l')
  end.

(** ** Explanation of a pair *)

(** [str.split()]: the maximal runs of non-whitespace characters. *)
Fixpoint split_ws_aux (cur : string) (s : string) : list string :=
  match s with
  | EmptyString => if truthy cur then [cur] else []
  | String c s' =>
      if re_space c
      then if truthy cur then cur :: split_ws_aux "" s' else split_ws_aux "" s'
      else split_ws_aux (cur ++ String c EmptyString) s'
  end.

Definition split_ws (s : string) : list string := split_ws_aux "" s.

(** [sep.join(l)]. *)
Fixpoint join (sep : string) (l : list string) : string :=
  match l with
  | [] => ""
  | [x] => x
  | x :: l' => x ++ sep ++ join sep l'
  end.

(** Lines 543-548. *)
Definition similarity_band (similarity_score : Q) : string :=
  if qgt similarity_score (7 # 10) then "Very similar project objectives and methodologies"
  else if qgt similarity_score (1 # 2) then "Similar approach with some methodological overlap"
  else "Some conceptual similarities in approach".

Definition explanation_stop_words : list string :=
  ["that"; "this"; "with"; "from"; "they"; "were"; "been"].

Section Explanation.

(** The order in which CPython iterates a set of strings (hash-seeded, so
    it may differ from run to run): any function of the elements. *)
Variable set_iter : list string -> list string.

(** [generate_similarity_explanation(proj1_id, proj2_id, similarity_score,
    overlapping_domains, text1, text2)]; the two ids are not read. *)
Definition generate_similarity_explanation (similarity_score : Q)
    (overlapping : list string) (text1 text2 : string) : string :=
  let part_domains :=
    if is_nil overlapping then []
    else ["Both projects belong to " ++ join ", " (set_iter overlapping) ++ " domain(s)"] in
  let common_words := set_iter (set_inter (split_ws text1) (split_ws text2)) in
  let meaningful_common :=
    filter (fun word => (3 <? String.length word)
                        && negb (existsb (String.eqb word) explanation_stop_words))
      common_words in
  let part_words :=
    if is_nil meaningful_common then []
    else if 5 <? length meaningful_common
    then ["Share multiple technical concepts and approaches"]
    else ["Share common concepts: " ++ join ", " (firstn 3 meaningful_common)] in
  join ". " (part_domains ++ part_words ++ [similarity_band similarity_score])%list ++ ".".

End Explanation.

(** ** Invariants of the resolution accumulator *)

(** The keys of [confidence_scores] are exactly the [matched_domains]. *)
Definition keys_match (acc : Acc) : Prop :=
  forall d, In d (fst acc) <-> In d (map fst (snd acc)).

(** Every entry of [confidence_scores] carries the method tag [tag]. *)
Definition all_methods (tag : string) (c : Conf) : Prop :=
  forall k e, In (k, e) c -> ce_method e = tag.

(** Boolean duplicate check on names. *)
Fixpoint nodupb (l : list string) : bool :=
  match l with
  | [] => true
  | x :: l' => negb (existsb (String.eqb x) l') && nodupb l'
  end.

(** The entry the fallback writes for a domain. *)
Definition keyword_entry (text : string) (dk : string * list string) : string * ConfEntry :=
  (fst dk,
   {| ce_score := Z.of_nat (list_sum (map (fun kw => py_count text (lower kw)) (snd dk)));
      ce_evidence := Keywords (filter (fun kw => 0 <? py_count text (lower kw)) (snd dk));
      ce_method := "keyword_matching" |}).

Definition keyword_kept (text : string) (tax : Taxonomy) : Taxonomy :=
  filter (fun dk => 0 <? list_sum (map (fun kw => py_count text (lower kw)) (snd dk))) tax.

(** Three records with no keyword in common, for the similarity runs. *)
Definition sample_df3 : DataFrame :=
  mk_df [mk_row "P0" "Alpha" "one" None; mk_row "P1" "Beta" "two" None;
         mk_row "P2" "Gamma" "three" None].

(** Two records with the same text and a third unrelated one; the TF-IDF
    cosine of the first two is 1 and every other cosine is 0. *)
Definition sample_df5 : DataFrame :=
  mk_df [mk_row "P0" "A website using machine learning" "" None;
         mk_row "P1" "A website using machine learning" "" None;
         mk_row "P2" "Cricket" "" None].

(** Seven records reading "Robot" and one reading "Garden".  With
    [max_df=0.95] the vocabulary is [robot] (in 7 of 8 texts) and [garden];
    the TF-IDF vectors of the first seven are equal, so the cosines among
    them are 1, and the cosines with the last one are 0. *)
Definition sample_df8 : DataFrame :=
  mk_df [mk_row "P0" "Robot" "" None; mk_row "P1" "Robot" "" None;
         mk_row "P2" "Robot" "" None; mk_row "P3" "Robot" "" None;
         mk_row "P4" "Robot" "" None; mk_row "P5" "Robot" "" None;
         mk_row "P6" "Robot" "" None; mk_row "P7" "Garden" "" None].

Definition robot_cosines (texts : list string) : option (nat -> nat -> Q) :=
  Some (fun i j => if (i <? 7) && (j <? 7) then 1%Q else 0%Q).

(** The pair reported for [sample_df5] when the first two texts have
    cosine 1. *)
Definition sample_pair5 : SimPair :=
  nth 0 (calculate_similarity (fun _ => Some (cos_of [(0, 1, 1%Q)])) stable_desc_sort
           plain_analyzer sample_df5)
    {| project_1_id := ""; project_2_id := ""; similarity_score := 0;
       similarity_level := ""; overlapping_domains := [] |}.

Definition pair_ids (p : SimPair) : string * string :=
  (project_1_id p, project_2_id p).

(** * Proofs *)

(** ** Dictionary updates *)

Lemma dict_set_keys {V} (d : list (string * V)) k v k' :
  In k' (map fst (dict_set d k v)) <-> k' = k \/ In k' (map fst d).
Proof.
  induction d as [|[k1 v1] d IH]; simpl.
  - split; intros [H|H]; subst; auto.
  - destruct (String.eqb_spec k k1) as [->|Hne]; simpl.
    + split; [intros [H|H]; subst; auto | intros [H|[H|H]]; subst; auto].
    + rewrite IH. split; intros H; decompose sum H; subst; auto.
Qed.

Lemma dict_set_entries {V} (d : list (string * V)) k v k' v' :
  In (k', v') (dict_set d k v) -> (k' = k /\ v' = v) \/ In (k', v') d.
Proof.
  induction d as [|[k1 v1] d IH]; simpl.
  - intros [H|[]]. inversion H; auto.
  - destruct (String.eqb_spec k k1) as [->|Hne]; simpl.
    + intros [H|H]; [inversion H; auto | auto].
    + intros [H|H]; [auto | destruct (IH H); auto].
Qed.

Lemma fold_left_invariant {A B} (P : A -> Prop) (f : A -> B -> A) (l : list B) (a : A) :
  (forall x b, P x -> P (f x b)) -> P a -> P (fold_left f l a).
Proof.
  revert a; induction l as [|b l IH]; simpl; auto.
Qed.

Lemma existsb_eqb_In (x : string) (l : list string) :
  existsb (String.eqb x) l = true <-> In x l.
Proof.
  rewrite existsb_exists. split.
  - intros [y [Hy Heq]]. apply String.eqb_eq in Heq. subst; auto.
  - intros H. exists x. split; auto. apply String.eqb_refl.
Qed.

(** ** Keys of [confidence_scores] track [matched_domains] *)

Lemma keys_match_nil : keys_match ([], []).
Proof. intro d; simpl; tauto. Qed.

Lemma keys_match_add (m : list string) (c : Conf) d e :
  keys_match (m, c) -> keys_match ((m ++ [d])%list, dict_set c d e).
Proof.
  intros H x; simpl. rewrite in_app_iff, dict_set_keys. simpl.
  specialize (H x); simpl in H. rewrite H. intuition.
Qed.

Lemma keys_match_cons (m : list string) (c : Conf) d e :
  keys_match (m, c) -> keys_match (d :: m, dict_set c d e).
Proof.
  intros H x; simpl. rewrite dict_set_keys.
  specialize (H x); simpl in H. rewrite H. intuition.
Qed.

Lemma keys_match_empty_conf (c : Conf) : keys_match ([], c) -> c = [].
Proof.
  intros H. destruct c as [|[k e] c]; auto.
  exfalso. apply (proj2 (H k)). simpl; auto.
Qed.

Lemma gemini_domain_step_keys acc di :
  keys_match acc -> keys_match (gemini_domain_step acc di).
Proof.
  destruct acc as [m c]. unfold gemini_domain_step. intros H.
  destruct (_ && _); auto using keys_match_add.
Qed.

Lemma gemini_stage_keys g acc : keys_match acc -> keys_match (gemini_stage g acc).
Proof.
  intros H. unfold gemini_stage. destruct g as [r|]; auto.
  destruct (gemini_truthy (Some r)); auto.
  pose proof (fold_left_invariant keys_match gemini_domain_step
                (opt_default [] (gr_domains r)) acc gemini_domain_step_keys H) as Hf.
  destruct (fold_left _ _ _) as [m c].
  destruct (_ && _); auto using keys_match_cons.
Qed.

Lemma keyword_domain_step_keys text acc dk :
  keys_match acc -> keys_match (keyword_domain_step text acc dk).
Proof.
  destruct acc as [m c], dk as [d kws]. unfold keyword_domain_step. intros H.
  destruct (keyword_score text kws) as [score mk].
  destruct (0 <? score); auto using keys_match_add.
Qed.

Lemma keyword_stage_keys tax t s acc : keys_match acc -> keys_match (keyword_stage tax t s acc).
Proof.
  intros H. unfold keyword_stage.
  apply fold_left_invariant; auto. intros; apply keyword_domain_step_keys; auto.
Qed.

Lemma existing_stage_keys df row acc : keys_match acc -> keys_match (existing_stage df row acc).
Proof.
  destruct acc as [m c]. unfold existing_stage. intros H.
  destruct (is_nil m && has_primary_domain df); auto.
  destruct (primary_domain row) as [l|]; auto.
  destruct (truthy (strip l)); auto using keys_match_add.
Qed.

Lemma default_stage_keys acc : keys_match acc -> keys_match (default_stage acc).
Proof.
  destruct acc as [m c]. unfold default_stage. intros H.
  destruct (is_nil m) eqn:E; auto.
  destruct m; [|discriminate].
  apply keys_match_empty_conf in H; subst c.
  apply (keys_match_add [] []). apply keys_match_nil.
Qed.

Lemma resolve_domains_keys gen a df row : keys_match (resolve_domains gen a df row).
Proof.
  unfold resolve_domains.
  apply default_stage_keys.
  pose proof (gemini_stage_keys (gemini_result_of gen a row) ([], []) keys_match_nil) as H0.
  destruct (is_nil _); auto.
  apply existing_stage_keys, keyword_stage_keys; auto.
Qed.

Lemma acc_empty acc : keys_match acc -> is_nil (fst acc) = true -> acc = ([], []).
Proof.
  destruct acc as [[|x m] c]; simpl; intros H E; [|discriminate].
  apply keys_match_empty_conf in H. subst; reflexivity.
Qed.

Lemma default_stage_nonnil acc : is_nil (fst acc) = false -> default_stage acc = acc.
Proof. destruct acc as [m c]; simpl; intros E; unfold default_stage; rewrite E; reflexivity. Qed.

Lemma existing_stage_nonnil df row acc :
  is_nil (fst acc) = false -> existing_stage df row acc = acc.
Proof. destruct acc as [m c]; simpl; intros E; unfold existing_stage; rewrite E; reflexivity. Qed.

Lemma gemini_stage_falsy g acc : gemini_truthy g = false -> gemini_stage g acc = acc.
Proof. destruct g as [r|]; simpl; auto. intros E. unfold gemini_stage. rewrite E. reflexivity. Qed.

(** ** Method tags of the entries each step writes *)

Lemma all_methods_nil tag : all_methods tag [].
Proof. intros k e []. Qed.

Lemma all_methods_set tag c d e :
  all_methods tag c -> ce_method e = tag -> all_methods tag (dict_set c d e).
Proof.
  intros H He k e' Hin. apply dict_set_entries in Hin as [[-> ->]|Hin]; eauto.
Qed.

Lemma gemini_stage_methods g :
  all_methods "gemini_ai" (snd (gemini_stage g ([], []))).
Proof.
  unfold gemini_stage. destruct g as [r|]; [|apply all_methods_nil].
  destruct (gemini_truthy (Some r)); [|apply all_methods_nil].
  assert (Hf : all_methods "gemini_ai"
                 (snd (fold_left gemini_domain_step (opt_default [] (gr_domains r)) ([], [])))).
  { apply (fold_left_invariant (fun acc : Acc => all_methods "gemini_ai" (snd acc))).
    - intros [m c] di H. unfold gemini_domain_step.
      destruct (_ && _); simpl; auto. apply all_methods_set; auto.
    - apply all_methods_nil. }
  destruct (fold_left _ _ _) as [m c]; simpl in Hf.
  destruct (_ && _); simpl; auto. apply all_methods_set; auto.
Qed.

Lemma keyword_stage_methods tax t s :
  all_methods "keyword_matching" (snd (keyword_stage tax t s ([], []))).
Proof.
  apply (fold_left_invariant (fun acc : Acc => all_methods "keyword_matching" (snd acc))).
  - intros [m c] [d kws] H. unfold keyword_domain_step.
    destruct (keyword_score _ kws) as [score mk].
    destruct (0 <? score); simpl; auto. apply all_methods_set; auto.
  - apply all_methods_nil.
Qed.

Lemma existing_stage_methods df row :
  all_methods "existing_data" (snd (existing_stage df row ([], []))).
Proof.
  unfold existing_stage. destruct (_ && _); [|apply all_methods_nil].
  destruct (primary_domain row) as [l|]; [|apply all_methods_nil].
  destruct (truthy (strip l)); [|apply all_methods_nil].
  apply all_methods_set; [apply all_methods_nil | reflexivity].
Qed.

Lemma default_stage_methods :
  all_methods "default" (snd (default_stage ([], []))).
Proof. apply all_methods_set; [apply all_methods_nil | reflexivity]. Qed.

(** [categorize_row] returns what [resolve_domains] computes. *)
Lemma categorize_row_fields gen a df idx row :
  dr_domains (categorize_row gen a df idx row) = fst (resolve_domains gen a df row) /\
  confidence_scores (categorize_row gen a df idx row) = snd (resolve_domains gen a df row) /\
  categorization_method (categorize_row gen a df idx row) =
    (if gemini_truthy (gemini_result_of gen a row) then "gemini_ai" else "keyword_matching").
Proof.
  unfold categorize_row. destruct (resolve_domains gen a df row) as [m c]. auto.
Qed.

(** Which step's output [resolve_domains] keeps, and the tags it carries. *)
Lemma resolve_domains_step_methods gen a df row :
  all_methods (step_method_tag (resolution_step gen a df row))
              (snd (resolve_domains gen a df row)).
Proof.
  unfold resolve_domains, resolution_step.
  pose proof (gemini_stage_keys (gemini_result_of gen a row) ([], []) keys_match_nil) as K0.
  pose proof (gemini_stage_methods (gemini_result_of gen a row)) as M0.
  destruct (is_nil (fst (gemini_stage (gemini_result_of gen a row) ([], [])))) eqn:E0;
    cbn [negb]; [|rewrite default_stage_nonnil by exact E0; exact M0].
  rewrite (acc_empty _ K0 E0).
  pose proof (keyword_stage_keys (domain_keywords a) (project_title row) (project_scope row)
                ([], []) keys_match_nil) as K1.
  pose proof (keyword_stage_methods (domain_keywords a) (project_title row) (project_scope row)) as M1.
  destruct (is_nil (fst (keyword_stage (domain_keywords a) (project_title row)
                                        (project_scope row) ([], [])))) eqn:E1; cbn [negb].
  - rewrite (acc_empty _ K1 E1).
    pose proof (existing_stage_keys df row ([], []) keys_match_nil) as K2.
    pose proof (existing_stage_methods df row) as M2.
    destruct (is_nil (fst (existing_stage df row ([], [])))) eqn:E2; cbn [negb].
    + rewrite (acc_empty _ K2 E2). apply default_stage_methods.
    + rewrite default_stage_nonnil by exact E2. exact M2.
  - rewrite existing_stage_nonnil by exact E1.
    rewrite default_stage_nonnil by exact E1. exact M1.
Qed.

Lemma default_stage_nonempty acc : fst (default_stage acc) <> [].
Proof.
  destruct acc as [[|x m] c]; unfold default_stage; simpl; discriminate.
Qed.

(** ** C10: confidence entries are keyed by exactly the matched domains *)

(** C10: for every record, whichever step resolved it, a domain name is a
    key of [confidence_scores] iff it occurs in [matched_domains] (each
    entry holding a score, an evidence field and a method tag). *)
Theorem confidence_keys_are_matched_domains gen a df idx row :
  forall d, In d (dr_domains (categorize_row gen a df idx row)) <->
            In d (map fst (confidence_scores (categorize_row gen a df idx row))).
Proof.
  intros d.
  destruct (categorize_row_fields gen a df idx row) as [-> [-> _]].
  apply resolve_domains_keys.
Qed.

(** ** C1: the record-level [categorization_method] *)

(** C1 (counterexample): a record resolved by its manual label (no Gemini
    model, no keyword in "zzz zzz", label "Robotics") is tagged
    ["keyword_matching"], not with the existing-label step. *)
Lemma method_tag_existing_label_cex :
  let row := mk_row "P1" "zzz" "zzz" (Some "Robotics") in
  let r := categorize_row no_gemini plain_analyzer (mk_df [row]) 0 row in
  resolution_step no_gemini plain_analyzer (mk_df [row]) row = StepExistingLabel /\
  dr_domains r = ["Robotics"] /\
  categorization_method r = "keyword_matching" /\
  categorization_method r <> step_method_tag StepExistingLabel.
Proof. vm_compute. repeat split; intro H; discriminate H. Qed.

(** The adapter answered (a truthy dict) but kept no domain: the keyword
    step produced the domains while the record is tagged ["gemini_ai"]. *)
Example ai_answer_keyword_domains_tagged_ai :
  let gen := gemini_answer [("Web Development", 3%Z)] "" in
  let row := mk_row "P1" "Portal" "A website" None in
  let r := categorize_row gen gemini_analyzer (mk_df [row]) 0 row in
  resolution_step gen gemini_analyzer (mk_df [row]) row = StepKeyword /\
  dr_domains r = ["Web Development"] /\
  categorization_method r = "gemini_ai".
Proof. vm_compute. repeat split. Qed.

(** C1 (amended): [categorization_method] takes only the two values
    ["gemini_ai"] and ["keyword_matching"]; it is ["gemini_ai"] exactly
    when the adapter returned a truthy result (so whenever the AI step
    produced the domains, and also when a truthy answer kept no domain),
    and ["keyword_matching"] whenever the adapter was not consulted or
    returned nothing or a falsy result, whichever of the keyword,
    existing-label and default steps then produced the domains; the step
    that produced the domains is named by the method tag of every entry of
    [confidence_scores]. *)
Theorem categorization_method_provenance gen a df idx row :
  let r := categorize_row gen a df idx row in
  (categorization_method r = "gemini_ai" \/ categorization_method r = "keyword_matching") /\
  (categorization_method r = "gemini_ai" <-> gemini_truthy (gemini_result_of gen a row) = true) /\
  (categorization_method r = "keyword_matching" <->
   gemini_truthy (gemini_result_of gen a row) = false) /\
  (resolution_step gen a df row = StepAI -> categorization_method r = "gemini_ai") /\
  (gemini_result_of gen a row = None -> categorization_method r = "keyword_matching") /\
  (forall d e, In (d, e) (confidence_scores r) ->
               ce_method e = step_method_tag (resolution_step gen a df row)).
Proof.
  intros r. destruct (categorize_row_fields gen a df idx row) as [_ [Hc Hm]].
  split; [unfold r; rewrite Hm; destruct (gemini_truthy _); auto|].
  split; [unfold r; rewrite Hm; destruct (gemini_truthy _); split; auto; discriminate|].
  split; [unfold r; rewrite Hm; destruct (gemini_truthy _); split; auto; discriminate|].
  split; [|split].
  - unfold r; rewrite Hm. unfold resolution_step.
    destruct (gemini_truthy (gemini_result_of gen a row)) eqn:T; auto.
    rewrite (gemini_stage_falsy _ _ T). simpl.
    repeat destruct (negb _); discriminate.
  - intros H. unfold r; rewrite Hm, H. reflexivity.
  - intros d e Hin. unfold r in Hin; rewrite Hc in Hin.
    exact (resolve_domains_step_methods gen a df row d e Hin).
Qed.

(** ** C6: non-empty, but duplicates pass through from the AI answer *)

(** C6 (code bug): [matched_domains] is never empty, yet an answer
    reporting one domain twice at confidence >= 6 yields a list holding
    that domain twice. *)
Theorem domains_nonempty_but_ai_duplicates :
  (forall gen a df idx row, dr_domains (categorize_row gen a df idx row) <> []) /\
  let gen := gemini_answer [("Web Development", 8%Z); ("Web Development", 7%Z)]
                           "Web Development" in
  let row := mk_row "P1" "Shop" "An online store" None in
  dr_domains (categorize_row gen gemini_analyzer (mk_df [row]) 0 row)
    = ["Web Development"; "Web Development"].
Proof.
  split.
  - intros gen a df idx row.
    destruct (categorize_row_fields gen a df idx row) as [-> _].
    unfold resolve_domains. apply default_stage_nonempty.
  - vm_compute. reflexivity.
Qed.

(** ** C4: the Gemini primary domain is not moved to the front *)

(** C4 (code bug): Gemini reports AI/ML (8) then Computer Vision (9) and
    names Computer Vision primary; since it is already retained it is not
    inserted at the front, so [matched_domains] starts with AI/ML and the
    record's [primary_domain] is AI/ML. *)
Theorem primary_domain_not_moved_first :
  let gen := gemini_answer [("Artificial Intelligence & Machine Learning", 8%Z);
                            ("Computer Vision", 9%Z)] "Computer Vision" in
  let row := mk_row "P1" "Face tracker" "Detects faces in video" None in
  let r := categorize_row gen gemini_analyzer (mk_df [row]) 0 row in
  dr_domains r = ["Artificial Intelligence & Machine Learning"; "Computer Vision"] /\
  dr_primary_domain r = "Artificial Intelligence & Machine Learning" /\
  dr_primary_domain r <> "Computer Vision".
Proof. vm_compute. repeat split; intro H; discriminate H. Qed.

Lemma nodupb_NoDup l : nodupb l = true -> NoDup l.
Proof.
  induction l as [|x l IH]; simpl; intros H; constructor.
  - apply andb_true_iff in H as [H _]. apply negb_true_iff in H.
    intros Hin. apply existsb_eqb_In in Hin. congruence.
  - apply andb_true_iff in H as [_ H]. auto.
Qed.

(** ** C2: construction *)

(** C2 (counterexample): an analyzer configured with an empty taxonomy and
    threshold 1.5 is obtained without any error. *)
Lemma construct_invalid_config_accepted :
  exists a, construct_configured false false None [] (3 # 2) = Ok a /\
            domain_keywords a = [] /\ similarity_threshold a = 3 # 2.
Proof. eexists. repeat split. Qed.

(** C2 (amended): construction never fails; it installs the fixed
    15-domain taxonomy and the threshold 0.3 (inside [0,1]); assigning any
    taxonomy and threshold afterwards is accepted as is. *)
Theorem analyzer_construction_total GEMINI_AVAILABLE configure_ok key :
  (exists a, FYPAnalyzer_init GEMINI_AVAILABLE configure_ok key = Ok a /\
             domain_keywords a = DOMAIN_KEYWORDS /\ similarity_threshold a = 3 # 10) /\
  length DOMAIN_KEYWORDS = 15 /\ (0 <= 3 # 10 <= 1)%Q /\
  (forall tax t, exists a,
      construct_configured GEMINI_AVAILABLE configure_ok key tax t = Ok a /\
      domain_keywords a = tax /\ similarity_threshold a = t).
Proof.
  split; [|split; [reflexivity|split]].
  - eexists. repeat split.
  - split; unfold Qle; simpl; lia.
  - intros tax t. eexists. repeat split.
Qed.

(** ** C7: the keyword fallback *)

Lemma keyword_score_fold text kws s0 mk0 :
  fold_left
    (fun '(score, matched_keywords) keyword =>
       let count := py_count text (lower keyword) in
       if 0 <? count then (score + count, (matched_keywords ++ [keyword])%list)
       else (score, matched_keywords))
    kws (s0, mk0)
  = (s0 + list_sum (map (fun kw => py_count text (lower kw)) kws),
     (mk0 ++ filter (fun kw => 0 <? py_count text (lower kw)) kws)%list).
Proof.
  revert s0 mk0; induction kws as [|kw kws IH]; intros s0 mk0; simpl.
  - rewrite Nat.add_0_r, app_nil_r. reflexivity.
  - destruct (0 <? py_count text (lower kw)) eqn:E.
    + rewrite IH, <- app_assoc, Nat.add_assoc. reflexivity.
    + rewrite IH. apply Nat.ltb_ge in E.
      replace (py_count text (lower kw)) with 0 by lia. reflexivity.
Qed.

Lemma keyword_score_spec text kws :
  keyword_score text kws =
    (list_sum (map (fun kw => py_count text (lower kw)) kws),
     filter (fun kw => 0 <? py_count text (lower kw)) kws).
Proof. unfold keyword_score. rewrite keyword_score_fold. reflexivity. Qed.

Lemma dict_set_fresh {V} (d : list (string * V)) k v :
  ~ In k (map fst d) -> dict_set d k v = (d ++ [(k, v)])%list.
Proof.
  induction d as [|[k1 v1] d IH]; simpl; auto.
  intros H. destruct (String.eqb_spec k k1) as [->|Hne].
  - exfalso; auto.
  - rewrite IH; auto.
Qed.

Lemma keyword_stage_fold text tax m0 c0 :
  NoDup (map fst tax) ->
  (forall d, In d (map fst tax) -> ~ In d (map fst c0)) ->
  fold_left (keyword_domain_step text) tax (m0, c0) =
    ((m0 ++ map fst (keyword_kept text tax))%list,
     (c0 ++ map (keyword_entry text) (keyword_kept text tax))%list).
Proof.
  revert m0 c0; induction tax as [|[d kws] tax IH]; intros m0 c0 Hnd Hfresh; cbn [fold_left].
  - unfold keyword_kept; simpl. rewrite !app_nil_r. reflexivity.
  - inversion Hnd as [|? ? Hd Hnd']; subst.
    assert (Hs : keyword_domain_step text (m0, c0) (d, kws) =
      if 0 <? list_sum (map (fun kw => py_count text (lower kw)) kws)
      then ((m0 ++ [d])%list, dict_set c0 d (snd (keyword_entry text (d, kws))))
      else (m0, c0))
      by (unfold keyword_domain_step; rewrite keyword_score_spec; reflexivity).
    rewrite Hs. unfold keyword_kept; simpl.
    destruct (0 <? list_sum (map (fun kw => py_count text (lower kw)) kws)) eqn:E; simpl.
    + rewrite dict_set_fresh by (apply Hfresh; simpl; auto).
      rewrite IH; auto.
      * unfold keyword_kept. rewrite <- !app_assoc. reflexivity.
      * intros d' Hin. rewrite map_app, in_app_iff. simpl.
        intros [H|[H|[]]]; [apply (Hfresh d'); simpl; auto | subst; auto].
    + rewrite IH; auto.
      intros d' Hin; apply Hfresh; simpl; auto.
Qed.

(** C7 (amended): with distinct domain names, the keyword fallback keeps,
    in taxonomy order, exactly the domains whose score is positive; a
    domain's score is the sum over its keywords of [py_count], Python's
    non-overlapping [str.count], of the lower-cased keyword in
    [lower(title) + " " + lower(scope)]; its evidence lists the keywords with
    a non-zero count; and this is what [resolve_domains] returns when the AI
    step kept nothing and some keyword matched. *)
Theorem keyword_fallback_scores gen a df row (Hnd : NoDup (map fst (domain_keywords a))) :
  let text := keyword_text (project_title row) (project_scope row) in
  keyword_stage (domain_keywords a) (project_title row) (project_scope row) ([], []) =
    (map fst (keyword_kept text (domain_keywords a)),
     map (keyword_entry text) (keyword_kept text (domain_keywords a))) /\
  (fst (gemini_stage (gemini_result_of gen a row) ([], [])) = [] ->
   keyword_kept text (domain_keywords a) <> [] ->
   resolve_domains gen a df row =
     (map fst (keyword_kept text (domain_keywords a)),
      map (keyword_entry text) (keyword_kept text (domain_keywords a)))).
Proof.
  intros text.
  assert (Hk : keyword_stage (domain_keywords a) (project_title row) (project_scope row) ([], []) =
    (map fst (keyword_kept text (domain_keywords a)),
     map (keyword_entry text) (keyword_kept text (domain_keywords a)))).
  { unfold keyword_stage. rewrite keyword_stage_fold; auto. }
  split; auto.
  intros H0 Hne. unfold resolve_domains.
  pose proof (gemini_stage_keys (gemini_result_of gen a row) ([], []) keys_match_nil) as K0.
  assert (E0 : is_nil (fst (gemini_stage (gemini_result_of gen a row) ([], []))) = true)
    by (rewrite H0; reflexivity).
  rewrite E0, (acc_empty _ K0 E0), Hk.
  assert (E1 : is_nil (fst (map fst (keyword_kept text (domain_keywords a)),
                           map (keyword_entry text) (keyword_kept text (domain_keywords a)))) = false).
  { simpl. destruct (keyword_kept text (domain_keywords a)); [congruence | reflexivity]. }
  rewrite existing_stage_nonnil by exact E1.
  rewrite default_stage_nonnil by exact E1. reflexivity.
Qed.

(** Witness of C7 on the installed taxonomy and the record "saasaas". *)
Lemma keyword_fallback_scores_witness :
  NoDup (map fst (domain_keywords plain_analyzer)) /\
  resolve_domains no_gemini plain_analyzer (mk_df []) (mk_row "P1" "saasaas" "" None) =
    (["Cloud Computing"],
     [("Cloud Computing", {| ce_score := 1; ce_evidence := Keywords ["saas"];
                             ce_method := "keyword_matching" |})]).
Proof.
  assert (Hnd : NoDup (map fst (domain_keywords plain_analyzer)))
    by (apply nodupb_NoDup; vm_compute; reflexivity).
  split; [exact Hnd|].
  rewrite (proj2 (keyword_fallback_scores no_gemini plain_analyzer (mk_df [])
                    (mk_row "P1" "saasaas" "" None) Hnd)).
  - vm_compute. reflexivity.
  - vm_compute. reflexivity.
  - vm_compute. discriminate.
Defined.

(** C7 (counterexample): in "saasaas" the keyword "saas" occurs twice,
    overlapping, but the fallback scores Cloud Computing 1. *)
Lemma keyword_count_overlap_cex :
  let row := mk_row "P1" "saasaas" "" None in
  let r := categorize_row no_gemini plain_analyzer (mk_df [row]) 0 row in
  option_map ce_score (dict_get (confidence_scores r) "Cloud Computing") = Some 1%Z /\
  spec_keyword_score (keyword_text "saasaas" "")
    (opt_default [] (dict_get DOMAIN_KEYWORDS "Cloud Computing")) = 2.
Proof. vm_compute. split; reflexivity. Qed.

(** ** The insertion sorts meet [sort_contract] *)

Section InsertionSort.
Variable before : SimPair -> SimPair -> bool.
Hypothesis before_true : forall x y, before x y = true -> score_desc x y.
Hypothesis before_false : forall x y, before x y = false -> score_desc y x.

Lemma insert_by_perm x l : Permutation (x :: l) (insert_by before x l).
Proof.
  induction l as [|y l IH]; simpl; auto.
  destruct (before x y); auto.
  eapply perm_trans; [apply perm_swap|]. constructor; exact IH.
Qed.

Lemma insert_by_sorted x l : Sorted score_desc l -> Sorted score_desc (insert_by before x l).
Proof.
  induction l as [|y l IH]; simpl; intros Hs.
  - repeat constructor.
  - destruct (before x y) eqn:E.
    + constructor; auto.
    + inversion Hs as [|? ? Hs' Hhd]; subst.
      constructor; auto.
      destruct l as [|z l]; simpl; [constructor; apply before_false; exact E|].
      destruct (before x z) eqn:E'.
      * constructor. apply before_false; exact E.
      * inversion Hhd; subst. constructor. assumption.
Qed.

Lemma isort_by_contract : sort_contract (isort_by before).
Proof.
  intros l. induction l as [|x l [IHp IHs]]; simpl.
  - split; constructor.
  - split.
    + eapply perm_trans; [constructor; exact IHp | apply insert_by_perm].
    + apply insert_by_sorted; exact IHs.
Qed.
End InsertionSort.

Lemma qgt_spec a b : qgt a b = true <-> (b < a)%Q.
Proof.
  unfold qgt. rewrite negb_true_iff. split.
  - intros H. apply Qnot_le_lt. intros H'. apply Qle_bool_iff in H'. congruence.
  - intros H. destruct (Qle_bool a b) eqn:E; auto.
    apply Qle_bool_iff in E. exfalso. apply (Qlt_not_le _ _ H E).
Qed.

Lemma stable_desc_sort_contract : sort_contract stable_desc_sort.
Proof.
  apply isort_by_contract.
  - intros x y H. apply Qle_bool_iff in H. exact H.
  - intros x y H. unfold score_desc. apply Qlt_le_weak, Qnot_le_lt.
    intros H'. apply Qle_bool_iff in H'. congruence.
Qed.

(** ** Where a reported pair comes from *)

Lemma index_pairs_lt n i j : In (i, j) (index_pairs n) -> i < j < n.
Proof.
  unfold index_pairs. rewrite in_flat_map. intros [i' [Hi Hj]].
  apply in_seq in Hi. apply in_map_iff in Hj as [j' [E Hj']].
  inversion E; subst. apply in_seq in Hj'. lia.
Qed.

Lemma collect_pairs_In a df ids M ijs ps p :
  collect_pairs a df ids M ijs = Some ps -> In p ps ->
  exists i j, In (i, j) ijs /\ pair_row a df ids M i j = Some (Some p).
Proof.
  revert ps; induction ijs as [|[i j] ijs IH]; simpl; intros ps H Hin.
  - inversion H; subst. destruct Hin.
  - destruct (pair_row a df ids M i j) as [[q|]|] eqn:E1;
      destruct (collect_pairs a df ids M ijs) as [qs|] eqn:E2; try discriminate;
      inversion H; subst.
    + destruct Hin as [->|Hin]; [exists i, j; auto|].
      destruct (IH qs eq_refl Hin) as [i' [j' [? ?]]]. exists i', j'; auto.
    + destruct (IH ps eq_refl Hin) as [i' [j' [? ?]]]. exists i', j'; auto.
Qed.

Lemma pair_row_spec a df ids M i j p :
  pair_row a df ids M i j = Some (Some p) ->
  (similarity_threshold a < M i j)%Q /\
  similarity_score p = round3 (M i j) /\
  similarity_level p = similarity_level_of (M i j) /\
  project_1_id p = nth i ids "" /\ project_2_id p = nth j ids "" /\
  exists d1 d2, get_project_domains a (nth i ids "") df = Some d1 /\
                get_project_domains a (nth j ids "") df = Some d2 /\
                overlapping_domains p = set_inter d1 d2.
Proof.
  unfold pair_row. destruct (qgt (M i j) (similarity_threshold a)) eqn:G; [|discriminate].
  apply qgt_spec in G.
  destruct (get_project_domains a (nth i ids "") df) as [d1|];
    destruct (get_project_domains a (nth j ids "") df) as [d2|]; try discriminate.
  intros H; inversion H; subst; simpl.
  repeat split; auto. exists d1, d2; auto.
Qed.

(** Every reported pair is a discovered pair, found at [i < j]. *)
Lemma calculate_similarity_In cm sort a df p (Hsort : sort_contract sort) :
  In p (calculate_similarity cm sort a df) ->
  exists M i j,
    cm (map fst (similarity_inputs df)) = Some M /\
    i < j < length (similarity_inputs df) /\
    pair_row a df (map snd (similarity_inputs df)) M i j = Some (Some p).
Proof.
  unfold calculate_similarity, discovered_pairs.
  destruct (length (map fst (similarity_inputs df)) <? 2); [intros []|].
  destruct (cm (map fst (similarity_inputs df))) as [M|] eqn:HM; [|intros []].
  destruct (collect_pairs _ _ _ _ _) as [ps|] eqn:HC; [|intros []].
  intros Hin.
  assert (Hps : In p ps).
  { destruct (is_nil ps); [destruct Hin|].
    apply (Permutation_in p (Permutation_sym (proj1 (Hsort ps)))); exact Hin. }
  destruct (collect_pairs_In _ _ _ _ _ _ _ HC Hps) as [i [j [Hij Hrow]]].
  apply index_pairs_lt in Hij. rewrite length_map in Hij.
  exists M, i, j. auto.
Qed.

(** ** Rounding to three decimals *)

Section Rounding.
Local Open Scope Q_scope.

Lemma round_half_even_bounds x :
(Qfloor x <= round_half_even x <= Qfloor x + 1)%Z.
Proof.
unfold round_half_even.
destruct (Qcompare _ _); try lia. destruct (Z.even _); lia.
Qed.

Lemma Qminus_int_lt_half x n : x <= inject_Z n -> x - inject_Z n < 1 # 2.
Proof.
destruct x as [xn xd]. unfold Qle, Qlt, Qminus, Qplus, Qopp, inject_Z; simpl.
nia.
Qed.

Lemma round_half_even_le_int x n : x <= inject_Z n -> (round_half_even x <= n)%Z.
Proof.
intros H.
assert (Hf : (Qfloor x <= n)%Z).
{ rewrite <- (Qfloor_Z n). apply Qfloor_resp_le; exact H. }
pose proof (round_half_even_bounds x) as B.
destruct (Z.eq_dec (Qfloor x) n) as [E|E]; [|lia].
unfold round_half_even.
replace (Qcompare (x - inject_Z (Qfloor x)) (1 # 2)) with Lt; [lia|].
symmetry. apply Qlt_alt. rewrite E. apply Qminus_int_lt_half; exact H.
Qed.

Lemma round_half_even_ge_int x n : inject_Z n < x -> (n <= round_half_even x)%Z.
Proof.
intros H. pose proof (Qlt_floor x) as Hf.
assert (Hlt : (n < Qfloor x + 1)%Z).
{ rewrite Zlt_Qlt. eapply Qlt_trans; eauto. }
pose proof (round_half_even_bounds x). lia.
Qed.

Lemma round3_le_one q : q <= 1 -> round3 q <= 1.
Proof.
intros H. unfold round3.
assert (H1000 : q * 1000 <= inject_Z 1000).
{ apply Qle_trans with (1 * 1000).
  - apply Qmult_le_compat_r; [exact H | unfold Qle; simpl; lia].
  - unfold Qle; simpl; lia. }
apply round_half_even_le_int in H1000.
unfold Qle; simpl. lia.
Qed.

Lemma round3_ge_threshold t q (T : Z) : t == T # 1000 -> t < q -> t <= round3 q.
Proof.
intros Ht Hq. rewrite Ht in Hq |- *. unfold round3.
assert (HT : inject_Z T < q * 1000).
{ apply Qle_lt_trans with ((T # 1000) * 1000).
  - unfold Qle; simpl; lia.
  - apply Qmult_lt_compat_r; [unfold Qlt; simpl; lia | exact Hq]. }
apply round_half_even_ge_int in HT.
unfold Qle; simpl. lia.
Qed.

End Rounding.

(** ** C3: retention, rounding and level of a reported pair *)

(** C3 (amended): every reported pair comes from a cosine [M i j] ([i < j])
    strictly above the threshold (retention on the unrounded value); its
    score is [round3 (M i j)], at most 1 when cosines are, and not below a
    threshold that is a multiple of 0.001; its level is computed from the
    unrounded [M i j]. *)
Theorem similarity_pair_retention_and_level cm sort a df
    (Hsort : sort_contract sort)
    (Hunit : forall M, cm (map fst (similarity_inputs df)) = Some M ->
             forall i j, (M i j <= 1)%Q) :
  forall p, In p (calculate_similarity cm sort a df) ->
  exists M i j,
    cm (map fst (similarity_inputs df)) = Some M /\ i < j /\
    (similarity_threshold a < M i j)%Q /\
    similarity_score p = round3 (M i j) /\
    similarity_level p = similarity_level_of (M i j) /\
    (similarity_score p <= 1)%Q /\
    (forall T : Z, similarity_threshold a == T # 1000 ->
                   similarity_threshold a <= similarity_score p)%Q.
Proof.
  intros p Hin.
  destruct (calculate_similarity_In cm sort a df p Hsort Hin) as [M [i [j [HM [Hij Hrow]]]]].
  destruct (pair_row_spec _ _ _ _ _ _ _ Hrow) as [Ht [Hs [Hl _]]].
  exists M, i, j. repeat split; auto; try lia.
  - rewrite Hs. apply round3_le_one. exact (Hunit M HM i j).
  - intros T HT. rewrite Hs. apply (round3_ge_threshold _ _ T HT Ht).
Qed.

Lemma similarity_pair_retention_and_level_witness :
  let out := calculate_similarity (fun _ => Some (fun _ _ => 1 # 2)) stable_desc_sort
               plain_analyzer sample_df3 in
  length out = 3 /\ forall p, In p out -> (similarity_score p <= 1)%Q.
Proof.
  split; [vm_compute; reflexivity|].
  intros p Hp.
  destruct (similarity_pair_retention_and_level (fun _ => Some (fun _ _ => 1 # 2))
              stable_desc_sort plain_analyzer sample_df3 stable_desc_sort_contract)
    with (p := p) as [M [i [j [_ [_ [_ [_ [_ [H _]]]]]]]]].
  - intros M HM i j. inversion HM; subst. unfold Qle; simpl; lia.
  - exact Hp.
  - exact H.
Defined.

(** C3 (counterexample): cosines 0.3004 and 0.7004 at threshold 0.3 give
    reported scores 0.3 (not above the threshold) and 0.7, with levels
    "Medium" and "Very High" where the reported scores would give "Low" and
    "High". *)
Lemma similarity_rounding_cex :
  let cm := fun _ : list string =>
              Some (cos_of [(0, 1, 3004 # 10000); (0, 2, 7004 # 10000)]) in
  let out := calculate_similarity cm stable_desc_sort plain_analyzer sample_df3 in
  map (fun p => (pair_ids p, similarity_score p, similarity_level p)) out =
    [(("P0", "P2"), 700 # 1000, "Very High"); (("P0", "P1"), 300 # 1000, "Medium")] /\
  ~ (similarity_threshold plain_analyzer < 300 # 1000)%Q /\
  similarity_level_of (700 # 1000) = "High" /\
  similarity_level_of (300 # 1000) = "Low".
Proof.
  vm_compute. split; [reflexivity|]. split; [|split; reflexivity].
  intros H. discriminate H.
Qed.

(** ** C8: order of the reported pairs *)

(** C8 (amended): the reported pairs are the discovered ones, reordered
    into non-increasing order of the reported score. *)
Theorem similarity_output_sorted cm sort a df (Hsort : sort_contract sort) :
  Sorted score_desc (calculate_similarity cm sort a df) /\
  (calculate_similarity cm sort a df = [] \/
   exists ps, discovered_pairs cm a df (map fst (similarity_inputs df))
                (map snd (similarity_inputs df)) = Some ps /\
              Permutation ps (calculate_similarity cm sort a df)).
Proof.
  unfold calculate_similarity.
  destruct (length (map fst (similarity_inputs df)) <? 2); [split; auto|].
  destruct (discovered_pairs cm a df _ _) as [ps|]; [|split; auto].
  destruct (is_nil ps) eqn:E; [split; auto|].
  destruct (Hsort ps) as [Hp Hs]. split; [exact Hs|]. right. exists ps; auto.
Qed.

Lemma similarity_output_sorted_witness :
  Sorted score_desc (calculate_similarity (fun _ => Some (fun _ _ => 1 # 2))
                       stable_desc_sort plain_analyzer sample_df3).
Proof.
  exact (proj1 (similarity_output_sorted (fun _ => Some (fun _ _ => 1 # 2))
                  stable_desc_sort plain_analyzer sample_df3
                  stable_desc_sort_contract)).
Defined.

(** C8 (counterexample): in [sample_df8] the 21 pairs of the seven "Robot"
    records are all reported with score 1.0.  pandas' [sort_values] (numpy's
    quicksort argsort on the reversed scores, reversed back) does not keep
    them in discovery order: the second reported pair is (P2,P3), where
    discovery order has (P0,P2). *)
Lemma similarity_tie_order_cex :
  let inputs := similarity_inputs sample_df8 in
  exists ps,
    discovered_pairs robot_cosines plain_analyzer sample_df8 (map fst inputs) (map snd inputs)
      = Some ps /\
    map pair_ids ps =
      [("P0", "P1"); ("P0", "P2"); ("P0", "P3"); ("P0", "P4");
       ("P0", "P5"); ("P0", "P6"); ("P1", "P2"); ("P1", "P3");
       ("P1", "P4"); ("P1", "P5"); ("P1", "P6"); ("P2", "P3");
       ("P2", "P4"); ("P2", "P5"); ("P2", "P6"); ("P3", "P4");
       ("P3", "P5"); ("P3", "P6"); ("P4", "P5"); ("P4", "P6");
       ("P5", "P6")] /\
    forallb (fun p => Qeq_bool (similarity_score p) 1) ps = true /\
    nargsort_desc (map similarity_score ps) =
      Some [0; 11; 19; 18; 17; 16; 15; 14; 13; 12; 10; 1; 9; 8; 7; 6; 5; 4; 3; 2; 20] /\
    map pair_ids (calculate_similarity robot_cosines pandas_sort_desc plain_analyzer sample_df8) =
      [("P0", "P1"); ("P2", "P3"); ("P4", "P6"); ("P4", "P5");
       ("P3", "P6"); ("P3", "P5"); ("P3", "P4"); ("P2", "P6");
       ("P2", "P5"); ("P2", "P4"); ("P1", "P6"); ("P0", "P2");
       ("P1", "P5"); ("P1", "P4"); ("P1", "P3"); ("P1", "P2");
       ("P0", "P6"); ("P0", "P5"); ("P0", "P4"); ("P0", "P3");
       ("P5", "P6")].
Proof.
  eexists. split; [vm_compute; reflexivity|]. vm_compute. repeat split.
Qed.

(** With at most 17 pairs numpy's quicksort runs only its insertion sort,
    which is stable: three pairs tied at 0.5 keep their discovery order. *)
Example pandas_sort_small_ties_keep_order :
  map pair_ids (calculate_similarity (fun _ => Some (fun _ _ => 1 # 2)) pandas_sort_desc
                  plain_analyzer sample_df3)
  = [("P0", "P1"); ("P0", "P2"); ("P1", "P2")].
Proof. vm_compute. reflexivity. Qed.

(** ** C9: the similarity universe *)

Lemma similarity_inputs_from_length df idx rs :
  length (similarity_inputs_from df idx rs) =
  length (filter (fun r => truthy (strip (combined_text r))) rs).
Proof.
  revert idx; induction rs as [|r rs IH]; intros idx; simpl; auto.
  destruct (truthy (strip (combined_text r))); simpl; auto.
Qed.

Lemma similarity_inputs_from_ids df idx rs x :
  In x (map snd (similarity_inputs_from df idx rs)) ->
  exists i r, nth_error rs i = Some r /\ truthy (strip (combined_text r)) = true /\
              x = row_project_id df (idx + i) r.
Proof.
  revert idx; induction rs as [|r rs IH]; intros idx; simpl; [intros []|].
  destruct (truthy (strip (combined_text r))) eqn:T; simpl.
  - intros [<-|H].
    + exists 0, r. rewrite Nat.add_0_r. auto.
    + destruct (IH (S idx) H) as [i [r' [? [? ->]]]].
      exists (S i), r'. rewrite Nat.add_succ_r. auto.
  - intros H. destruct (IH (S idx) H) as [i [r' [? [? ->]]]].
    exists (S i), r'. rewrite Nat.add_succ_r. auto.
Qed.

Lemma nth_similarity_id df k :
  k < length (similarity_inputs df) ->
  exists i r, nth_error (rows df) i = Some r /\ truthy (strip (combined_text r)) = true /\
              nth k (map snd (similarity_inputs df)) "" = row_project_id df i r.
Proof.
  intros Hk.
  assert (Hin : In (nth k (map snd (similarity_inputs df)) "") (map snd (similarity_inputs df)))
    by (apply nth_In; rewrite length_map; exact Hk).
  destruct (similarity_inputs_from_ids df 0 (rows df) _ Hin) as [i [r [? [? E]]]].
  exists i, r. auto.
Qed.

(** C9: with fewer than two records whose combined cleaned text is not
    blank the result is empty (no exception escapes: the result is a
    list), and every reported pair joins two records whose combined text is
    not blank. *)
Theorem similarity_needs_two_texts cm sort a df (Hsort : sort_contract sort) :
  (length (filter (fun r => truthy (strip (combined_text r))) (rows df)) < 2 ->
   calculate_similarity cm sort a df = []) /\
  (forall p, In p (calculate_similarity cm sort a df) ->
   exists i ri j rj,
     nth_error (rows df) i = Some ri /\ truthy (strip (combined_text ri)) = true /\
     project_1_id p = row_project_id df i ri /\
     nth_error (rows df) j = Some rj /\ truthy (strip (combined_text rj)) = true /\
     project_2_id p = row_project_id df j rj).
Proof.
  split.
  - intros H. unfold calculate_similarity.
    rewrite length_map. unfold similarity_inputs. rewrite similarity_inputs_from_length.
    apply Nat.ltb_lt in H. rewrite H. reflexivity.
  - intros p Hin.
    destruct (calculate_similarity_In cm sort a df p Hsort Hin) as [M [i [j [_ [Hij Hrow]]]]].
    destruct (pair_row_spec _ _ _ _ _ _ _ Hrow) as [_ [_ [_ [H1 [H2 _]]]]].
    destruct (nth_similarity_id df i) as [i' [ri [? [? E1]]]]; [lia|].
    destruct (nth_similarity_id df j) as [j' [rj [? [? E2]]]]; [lia|].
    exists i', ri, j', rj. rewrite H1, H2, E1, E2. auto 7.
Qed.

Lemma similarity_needs_two_texts_witness :
  calculate_similarity (fun _ => Some (fun _ _ => 1 # 1)) stable_desc_sort plain_analyzer
    (mk_df [mk_row "P0" "Alpha" "one" None; mk_row "P1" "" "" None]) = [].
Proof.
  apply (proj1 (similarity_needs_two_texts (fun _ => Some (fun _ _ => 1 # 1)) stable_desc_sort
                  plain_analyzer (mk_df [mk_row "P0" "Alpha" "one" None; mk_row "P1" "" "" None])
                  stable_desc_sort_contract)).
  vm_compute. lia.
Defined.

(** ** C5: [overlapping_domains] *)

(** C5 (code bug): two records with text "A website using machine learning"
    are each resolved to AI/ML, Web, Game and Education, but their pair
    reports only AI/ML as overlapping: [get_project_domains] returns the
    first domain with a matching keyword, not the record's domains. *)
Theorem overlap_uses_first_keyword_domain :
  let cm := fun _ : list string => Some (cos_of [(0, 1, 1%Q)]) in
  let out := calculate_similarity cm stable_desc_sort plain_analyzer sample_df5 in
  let doms := map dr_domains (categorize_by_domain no_gemini plain_analyzer sample_df5) in
  doms = [["Artificial Intelligence & Machine Learning"; "Web Development";
           "Game Development"; "Education & E-learning"];
          ["Artificial Intelligence & Machine Learning"; "Web Development";
           "Game Development"; "Education & E-learning"];
          ["Sports & Fitness"]] /\
  map pair_ids out = [("P0", "P1")] /\
  map overlapping_domains out = [["Artificial Intelligence & Machine Learning"]] /\
  set_inter (nth 0 doms []) (nth 1 doms []) =
    ["Artificial Intelligence & Machine Learning"; "Web Development";
     "Game Development"; "Education & E-learning"].
Proof. vm_compute. repeat split. Qed.

(** ** Text cleaning *)

Lemma lower_char_space c : is_space (lower_char c) = is_space c.
Proof. destruct c as [[] [] [] [] [] [] [] []]; reflexivity. Qed.

Lemma lower_char_re_space c : re_space (lower_char c) = re_space c.
Proof. destruct c as [[] [] [] [] [] [] [] []]; reflexivity. Qed.

Lemma lower_char_blank c : Ascii.eqb (lower_char c) " " = Ascii.eqb c " ".
Proof. destruct c as [[] [] [] [] [] [] [] []]; reflexivity. Qed.

Lemma lower_char_idem c : lower_char (lower_char c) = lower_char c.
Proof. destruct c as [[] [] [] [] [] [] [] []]; reflexivity. Qed.

Lemma lower_char_upper c : is_upper (lower_char c) = false.
Proof. destruct c as [[] [] [] [] [] [] [] []]; reflexivity. Qed.

Lemma is_space_re_space c : is_space c = true -> re_space c = true.
Proof. unfold re_space. intros H. rewrite H. reflexivity. Qed.

Lemma lower_idem s : lower (lower s) = lower s.
Proof. induction s; simpl; f_equal; auto using lower_char_idem. Qed.

Lemma lower_truthy s : truthy (lower s) = truthy s.
Proof. destruct s; reflexivity. Qed.

Lemma lower_lstrip s : lower (lstrip s) = lstrip (lower s).
Proof.
  induction s as [|c s IH]; simpl; auto.
  rewrite lower_char_space. destruct (is_space c); auto.
Qed.

Lemma lower_rstrip s : lower (rstrip s) = rstrip (lower s).
Proof.
  induction s as [|c s IH]; simpl; auto.
  rewrite lower_char_space, <- IH, lower_truthy.
  destruct (is_space c && negb (truthy (rstrip s))); simpl; auto.
Qed.

Lemma lower_collapse p s : lower (collapse_ws p s) = collapse_ws p (lower s).
Proof.
  revert p; induction s as [|c s IH]; intros p; simpl; auto.
  rewrite lower_char_re_space.
  destruct (re_space c), p; simpl; rewrite ?IH; auto.
Qed.

Lemma all_chars_app f a b : all_chars f (a ++ b) = all_chars f a && all_chars f b.
Proof. induction a as [|c a IH]; simpl; auto. rewrite IH, andb_assoc. auto. Qed.

Lemma list_ascii_of_string_app a b :
  list_ascii_of_string (a ++ b) = (list_ascii_of_string a ++ list_ascii_of_string b)%list.
Proof. induction a as [|c a IH]; simpl; f_equal; auto. Qed.

Lemma string_of_list_ascii_app l1 l2 :
  string_of_list_ascii (l1 ++ l2)%list = string_of_list_ascii l1 ++ string_of_list_ascii l2.
Proof. induction l1 as [|c l1 IH]; simpl; f_equal; auto. Qed.

Lemma rev_string_cons c s : rev_string (String c s) = rev_string s ++ String c EmptyString.
Proof.
  unfold rev_string. simpl. rewrite string_of_list_ascii_app. reflexivity.
Qed.

Lemma rev_string_snoc s c : rev_string (s ++ String c EmptyString) = String c (rev_string s).
Proof.
  unfold rev_string. rewrite list_ascii_of_string_app, rev_app_distr. reflexivity.
Qed.

Lemma append_snoc_nonempty s c : s ++ String c EmptyString <> EmptyString.
Proof. destruct s; discriminate. Qed.

Lemma lstrip_nil s : lstrip s = EmptyString <-> all_chars is_space s = true.
Proof.
  induction s as [|c s IH]; simpl; [tauto|].
  destruct (is_space c); simpl; [exact IH | split; discriminate].
Qed.

Lemma lstrip_app a b :
  lstrip (a ++ b) = if all_chars is_space a then lstrip b else lstrip a ++ b.
Proof.
  induction a as [|c a IH]; simpl; auto.
  destruct (is_space c); simpl; auto.
Qed.

Lemma rev_lstrip_rev s : rev_string (lstrip (rev_string s)) = rstrip s.
Proof.
  induction s as [|c s IH]; [reflexivity|].
  rewrite rev_string_cons, lstrip_app. simpl rstrip.
  destruct (all_chars is_space (rev_string s)) eqn:Ha.
  - apply lstrip_nil in Ha. rewrite Ha in IH. rewrite <- IH.
    simpl. destruct (is_space c); reflexivity.
  - rewrite rev_string_snoc, IH.
    assert (Hne : truthy (rstrip s) = true).
    { rewrite <- IH. unfold truthy.
      destruct (lstrip (rev_string s)) eqn:E.
      + apply lstrip_nil in E. congruence.
      + rewrite rev_string_cons. destruct (rev_string s0 ++ _)%string eqn:E2;
          [exfalso; exact (append_snoc_nonempty _ _ E2) | reflexivity]. }
    rewrite Hne, andb_false_r. reflexivity.
Qed.

Lemma strip_rstrip_lstrip s : strip s = rstrip (lstrip s).
Proof. unfold strip. apply rev_lstrip_rev. Qed.

Lemma rstrip_nil s : rstrip s = EmptyString <-> all_chars is_space s = true.
Proof.
  induction s as [|c s IH]; simpl; [tauto|].
  unfold truthy. destruct (is_space c), (String.eqb (rstrip s) EmptyString) eqn:E; simpl.
  - apply String.eqb_eq in E. tauto.
  - apply String.eqb_neq in E. split; [discriminate|]. intros H; apply IH in H; contradiction.
  - split; discriminate.
  - split; discriminate.
Qed.

Lemma lstrip_idem s : lstrip (lstrip s) = lstrip s.
Proof.
  induction s as [|c s IH]; simpl; auto.
  destruct (is_space c) eqn:E; simpl; rewrite ?E; auto.
Qed.

Lemma rstrip_idem s : rstrip (rstrip s) = rstrip s.
Proof.
  induction s as [|c s IH]; simpl; auto.
  destruct (is_space c && negb (truthy (rstrip s))) eqn:E; simpl; auto.
  rewrite IH, E. reflexivity.
Qed.

Lemma lstrip_rstrip s : lstrip (rstrip s) = rstrip (lstrip s).
Proof.
  induction s as [|c s IH]; simpl; auto.
  unfold truthy. destruct (is_space c) eqn:Ec; simpl.
  - destruct (String.eqb (rstrip s) EmptyString) eqn:E; simpl.
    + apply String.eqb_eq, rstrip_nil, lstrip_nil in E. rewrite E. reflexivity.
    + rewrite Ec. exact IH.
  - rewrite Ec. reflexivity.
Qed.

Lemma all_space_lstrip s : all_chars is_space (lstrip s) = all_chars is_space s.
Proof.
  induction s as [|c s IH]; simpl; auto.
  destruct (is_space c) eqn:E; simpl; rewrite ?E; auto.
Qed.

Lemma all_space_rstrip s : all_chars is_space (rstrip s) = all_chars is_space s.
Proof.
  induction s as [|c s IH]; simpl; auto.
  unfold truthy. destruct (is_space c) eqn:Ec; simpl.
  - destruct (String.eqb (rstrip s) EmptyString) eqn:E; simpl.
    + apply String.eqb_eq, rstrip_nil in E. rewrite E. reflexivity.
    + rewrite Ec. exact IH.
  - rewrite Ec. reflexivity.
Qed.

Lemma all_space_lower s : all_chars is_space (lower s) = all_chars is_space s.
Proof. induction s as [|c s IH]; simpl; auto. rewrite lower_char_space, IH. auto. Qed.

Lemma all_space_collapse p s : all_chars is_space (collapse_ws p s) = all_chars re_space s.
Proof.
  revert p; induction s as [|c s IH]; intros p; simpl; auto.
  destruct (re_space c) eqn:Ec.
  - destruct p; simpl; auto.
  - simpl. destruct (is_space c) eqn:Es; simpl; auto.
    apply is_space_re_space in Es. congruence.
Qed.

Lemma all_space_clean s : all_chars is_space (clean_str s) = all_chars re_space s.
Proof.
  unfold clean_str. rewrite all_space_lower, strip_rstrip_lstrip, all_space_rstrip,
    all_space_lstrip. apply all_space_collapse.
Qed.

Lemma strip_truthy s : truthy (strip s) = negb (all_chars is_space s).
Proof.
  rewrite strip_rstrip_lstrip. unfold truthy.
  destruct (String.eqb (rstrip (lstrip s)) EmptyString) eqn:E; simpl.
  - apply String.eqb_eq, rstrip_nil in E. rewrite all_space_lstrip in E. now rewrite E.
  - apply String.eqb_neq in E. destruct (all_chars is_space s) eqn:A; auto.
    rewrite <- all_space_lstrip in A. apply rstrip_nil in A. contradiction.
Qed.

Lemma single_spaced_false p s : single_spaced p s = true -> single_spaced false s = true.
Proof.
  intros H. destruct s as [|c s]; simpl in *; auto.
  destruct (re_space c); auto. destruct (Ascii.eqb c " "), p; simpl in *; auto; discriminate.
Qed.

Lemma collapse_single p s : single_spaced p (collapse_ws p s) = true.
Proof.
  revert p; induction s as [|c s IH]; intros p; simpl; auto.
  destruct (re_space c) eqn:Ec.
  - destruct p; auto. simpl. apply IH.
  - simpl. rewrite Ec. apply IH.
Qed.

Lemma single_collapse p s : single_spaced p s = true -> collapse_ws p s = s.
Proof.
  revert p; induction s as [|c s IH]; intros p; simpl; auto.
  destruct (re_space c) eqn:Ec; intros H.
  - apply andb_true_iff in H as [H H2]. apply andb_true_iff in H as [H1 H3].
    apply Ascii.eqb_eq in H1. subst c. destruct p; [discriminate|].
    rewrite (IH true H2). reflexivity.
  - rewrite (IH false H). reflexivity.
Qed.

Lemma single_lstrip p s : single_spaced p s = true -> single_spaced false (lstrip s) = true.
Proof.
  revert p; induction s as [|c s IH]; intros p H; simpl; auto.
  destruct (is_space c) eqn:Es.
  - simpl in H. rewrite (is_space_re_space _ Es) in H.
    apply andb_true_iff in H as [_ H]. exact (IH _ H).
  - exact (single_spaced_false _ _ H).
Qed.

Lemma single_rstrip p s : single_spaced p s = true -> single_spaced p (rstrip s) = true.
Proof.
  revert p; induction s as [|c s IH]; intros p H; simpl; auto.
  destruct (is_space c && negb (truthy (rstrip s))); simpl; auto.
  simpl in H. destruct (re_space c).
  - apply andb_true_iff in H as [H H2]. rewrite H. simpl. exact (IH _ H2).
  - exact (IH _ H).
Qed.

Lemma single_lower p s : single_spaced p (lower s) = single_spaced p s.
Proof.
  revert p; induction s as [|c s IH]; intros p; simpl; auto.
  rewrite lower_char_re_space, lower_char_blank, !IH. reflexivity.
Qed.

Lemma lower_no_upper s : all_chars (fun c => negb (is_upper c)) (lower s) = true.
Proof. induction s as [|c s IH]; simpl; auto. rewrite lower_char_upper. exact IH. Qed.

Lemma clean_str_single s : single_spaced false (clean_str s) = true.
Proof.
  unfold clean_str. rewrite single_lower, strip_rstrip_lstrip.
  apply single_rstrip, (single_lstrip false), collapse_single.
Qed.

Lemma clean_str_stripped s : strip (clean_str s) = clean_str s.
Proof.
  unfold clean_str. rewrite !strip_rstrip_lstrip, <- lower_lstrip, <- lower_rstrip.
  rewrite lstrip_rstrip, lstrip_idem, rstrip_idem. reflexivity.
Qed.

Lemma clean_str_idem s : clean_str (clean_str s) = clean_str s.
Proof.
  unfold clean_str at 1.
  rewrite (single_collapse _ _ (clean_str_single s)), clean_str_stripped.
  unfold clean_str. apply lower_idem.
Qed.

Lemma dict_get_set_eq {V} (d : list (string * V)) k v : dict_get (dict_set d k v) k = Some v.
Proof.
  induction d as [|[k1 v1] d IH]; simpl; rewrite ?String.eqb_refl; auto.
  destruct (String.eqb k k1) eqn:E; simpl; rewrite ?String.eqb_refl, ?E; auto.
Qed.

Lemma dict_get_set_neq {V} (d : list (string * V)) k v k' :
  k' <> k -> dict_get (dict_set d k v) k' = dict_get d k'.
Proof.
  intros Hne. induction d as [|[k1 v1] d IH]; simpl.
  - apply String.eqb_neq in Hne. rewrite Hne. reflexivity.
  - destruct (String.eqb k k1) eqn:E; simpl.
    + apply String.eqb_eq in E. subst k1. apply String.eqb_neq in Hne. rewrite Hne. reflexivity.
    + rewrite IH. reflexivity.
Qed.

Lemma rename_column_get {V} (df : list (string * V)) old new k :
  dict_get (rename_column df (old, new)) k =
  if String.eqb k new
  then match dict_get df old with Some col => Some col | None => dict_get df k end
  else dict_get df k.
Proof.
  unfold rename_column.
  destruct (String.eqb_spec k new) as [->|Hne]; destruct (dict_get df old);
    auto using dict_get_set_eq, dict_get_set_neq.
Qed.

(** ** Extra properties: loading and cleaning *)

(** Extra X1: [clean_text] returns a normal form: cleaning it again gives
    it back, it has no leading or trailing whitespace, its only whitespace
    characters are single spaces, and it has no upper-case letter. *)
Theorem clean_text_normal_form (v : Cell) :
  let t := clean_text v in
  clean_text (CellStr t) = t /\ strip t = t /\ single_spaced false t = true /\
  all_chars (fun c => negb (is_upper c)) t = true.
Proof.
  destruct v as [s| |z]; simpl; [|repeat split; reflexivity ..].
  split; [apply clean_str_idem|].
  split; [apply clean_str_stripped|].
  split; [apply clean_str_single|].
  unfold clean_str. apply lower_no_upper.
Qed.

(** Extra X2: a record loaded by [load_data] enters the similarity
    analysis exactly when its title or its scope has a character that is
    not whitespace (a missing cell counts as empty). *)
Theorem load_row_enters_similarity df idx short title scope label rs :
  let row := load_row short title scope label in
  similarity_inputs_from df idx (row :: rs) =
  ((if all_chars re_space (opt_default "" title) && all_chars re_space (opt_default "" scope)
    then [] else [(combined_text row, row_project_id df idx row)])
   ++ similarity_inputs_from df (S idx) rs)%list.
Proof.
  intros row. cbn [similarity_inputs_from].
  rewrite strip_truthy. unfold combined_text, row. cbn [load_row cleaned_title cleaned_scope clean_text].
  rewrite !all_chars_app, !all_space_clean. cbn [all_chars].
  destruct (all_chars re_space (opt_default "" title)), (all_chars re_space (opt_default "" scope));
    reflexivity.
Qed.

(** Extra X3: after the column renaming of [load_data], [short_title] is
    the ["Project Short Title"] column when the sheet has one, else the
    ["Short_Title"] column, else the sheet's own [short_title] column. *)
Theorem short_title_column_precedence {V} (columns : list (string * V)) :
  dict_get (standardize_columns columns) "short_title" =
  match dict_get columns "Project Short Title" with
  | Some col => Some col
  | None =>
      match dict_get columns "Short_Title" with
      | Some col => Some col
      | None => dict_get columns "short_title"
      end
  end.
Proof.
  unfold standardize_columns, column_mapping. cbn [fold_left].
  repeat rewrite rename_column_get. simpl.
  destruct (dict_get columns "Project Short Title"); auto.
Qed.

(** ** Splitting on a separator *)

Lemma string_app_nil s : s ++ EmptyString = s.
Proof. induction s; simpl; f_equal; auto. Qed.

Lemma string_app_assoc a b c : (a ++ b) ++ c = a ++ (b ++ c).
Proof. induction a; simpl; f_equal; auto. Qed.

Lemma prefix_app s r : String.prefix s (s ++ r) = true.
Proof.
  induction s as [|c s IH]; simpl; [destruct r; reflexivity|].
  destruct (ascii_dec c c); [exact IH | contradiction].
Qed.

Lemma prefix_backtick_head w c y :
  negb (Ascii.eqb c "`") = true -> String.prefix (String "`" w) (String c y) = false.
Proof.
  intros H. cbn [String.prefix].
  destruct (ascii_dec "`" c) as [<-|]; [simpl in H; discriminate | reflexivity].
Qed.

Lemma prefix_backtick_false w b :
  no_backtick b = true -> String.prefix (String "`" w) b = false.
Proof.
  destruct b as [|c b]; [reflexivity|]. intros H. cbn [String.prefix].
  destruct (ascii_dec "`" c) as [<-|]; [simpl in H; discriminate | reflexivity].
Qed.

Lemma split_no_backtick sep' x r cur :
  no_backtick x = true ->
  split_aux (String "`" sep') 0 cur (x ++ r) = split_aux (String "`" sep') 0 (cur ++ x) r.
Proof.
  revert cur; induction x as [|c x IH]; intros cur H.
  - cbn [String.append]. rewrite string_app_nil. reflexivity.
  - cbn [no_backtick] in H. apply andb_true_iff in H as [Hc H].
    cbn [String.append split_aux].
    rewrite prefix_backtick_head by exact Hc.
    rewrite IH by exact H. rewrite string_app_assoc. reflexivity.
Qed.

Lemma split_skip sep x r cur : split_aux sep (String.length x) cur (x ++ r) = split_aux sep 0 cur r.
Proof. induction x as [|c x IH]; simpl; auto. Qed.

Lemma split_at_sep c sep' r cur :
  split_aux (String c sep') 0 cur (String c sep' ++ r) = cur :: split_aux (String c sep') 0 "" r.
Proof.
  pose proof (prefix_app (String c sep') r) as Hp. cbn [String.append] in Hp |- *.
  cbn [split_aux]. rewrite Hp. cbn [String.length]. rewrite Nat.sub_succ, Nat.sub_0_r, split_skip.
  reflexivity.
Qed.

Lemma py_contains_no_backtick sub' x r :
  no_backtick x = true -> py_contains (x ++ r) (String "`" sub') = py_contains r (String "`" sub').
Proof.
  induction x as [|c x IH]; intros H; [reflexivity|].
  cbn [no_backtick] in H. apply andb_true_iff in H as [Hc H].
  cbn [String.append py_contains].
  rewrite prefix_backtick_head by exact Hc.
  apply IH, H.
Qed.

Lemma py_contains_app_r sub x r : py_contains r sub = true -> py_contains (x ++ r) sub = true.
Proof. induction x as [|c x IH]; simpl; auto. intros H. rewrite IH; auto using orb_true_r. Qed.

Lemma py_contains_prefix sub s : String.prefix sub s = true -> py_contains s sub = true.
Proof.
  destruct s as [|c s]; simpl.
  - destruct sub; [reflexivity | discriminate].
  - intros ->. reflexivity.
Qed.

(** ** Extra properties: the Gemini answer *)

(** Extra X4: an answer wrapped in a ```json fence, with no backtick
    before the fence or in the payload or after the closing fence, is
    reduced to its stripped payload. *)
Theorem code_fence_json_payload a p b
    (Ha : no_backtick a = true) (Hp : no_backtick p = true) (Hb : no_backtick b = true) :
  strip_code_fence (a ++ "```json" ++ p ++ "```" ++ b) = strip p.
Proof.
  unfold strip_code_fence, py_split.
  rewrite py_contains_no_backtick by exact Ha.
  rewrite py_contains_prefix by apply prefix_app. cbn iota.
  rewrite split_no_backtick by exact Ha. rewrite split_at_sep.
  rewrite split_no_backtick by exact Hp. simpl (EmptyString ++ p).
  change ("```" ++ b) with (String "`" (String "`" (String "`" b))).
  cbn [split_aux]. simpl (String.prefix "```json" _).
  destruct (String.prefix "json" b) eqn:Ej.
  - cbn [nth]. rewrite <- (string_app_nil p) at 1.
    rewrite split_no_backtick by exact Hp. reflexivity.
  - rewrite !(prefix_backtick_false _ b Hb).
    rewrite <- (string_app_nil b), split_no_backtick by exact Hb.
    cbn [split_aux nth].
    rewrite !string_app_assoc. cbn [String.append].
    rewrite split_no_backtick by exact Hp.
    change (String "`" (String "`" (String "`" b))) with ("```" ++ b).
    rewrite split_at_sep. reflexivity.
Qed.

(** Extra X5: an answer with a plain ``` fence and no ```json marker,
    with no backtick before the fence or in the payload, is reduced to its
    stripped payload, whatever follows the payload's closing fence. *)
Theorem code_fence_plain_payload a p b
    (Ha : no_backtick a = true) (Hp : no_backtick p = true)
    (Hjson : py_contains (a ++ "```" ++ p ++ "```" ++ b) "```json" = false) :
  strip_code_fence (a ++ "```" ++ p ++ "```" ++ b) = strip p.
Proof.
  unfold strip_code_fence, py_split. rewrite Hjson.
  rewrite py_contains_app_r by (apply py_contains_prefix, prefix_app). cbn iota.
  rewrite split_no_backtick by exact Ha. rewrite split_at_sep.
  rewrite split_no_backtick by exact Hp. rewrite split_at_sep. reflexivity.
Qed.

Lemma code_fence_plain_payload_witness :
  strip_code_fence ("Answer: " ++ "```" ++ " {} " ++ "```" ++ "") = strip " {} ".
Proof.
  apply code_fence_plain_payload; vm_compute; reflexivity.
Defined.

(** Extra X6: an answer without any backtick is passed to [json.loads]
    unchanged. *)
Theorem code_fence_absent t (Ht : no_backtick t = true) : strip_code_fence t = t.
Proof.
  assert (E : forall sub', py_contains t (String "`" sub') = false).
  { intros sub'. rewrite <- (string_app_nil t). apply py_contains_no_backtick, Ht. }
  unfold strip_code_fence. rewrite !E. reflexivity.
Qed.

Lemma code_fence_absent_witness : strip_code_fence "{}" = "{}".
Proof. apply code_fence_absent. vm_compute. reflexivity. Defined.

Lemma code_fence_json_payload_witness :
  strip_code_fence ("" ++ "```json" ++ " {} " ++ "```" ++ " ") = strip " {} ".
Proof. apply code_fence_json_payload; vm_compute; reflexivity. Defined.

(** ** Extra properties: the workbooks *)

Lemma substring_length m s : String.length (substring 0 m s) <= m.
Proof.
  revert s; induction m as [|m IH]; intros [|c s]; simpl; try lia.
  specialize (IH s). lia.
Qed.

Lemma substring_all_chars f m s : all_chars f s = true -> all_chars f (substring 0 m s) = true.
Proof.
  revert s; induction m as [|m IH]; intros [|c s] H; simpl in *; auto.
  apply andb_true_iff in H as [H1 H2]. rewrite H1. simpl. auto.
Qed.

Lemma filter_string_all (f g : ascii -> bool) s :
  (forall c, f c = true -> g c = true) -> all_chars g (filter_string f s) = true.
Proof.
  intros Hfg. induction s as [|c s IH]; simpl; auto.
  destruct (f c) eqn:E; simpl; auto. rewrite (Hfg c E). exact IH.
Qed.

Lemma sheet_char_allowed c :
  (is_word_char c || re_space c || Ascii.eqb c "-") = true -> negb (excel_forbidden c) = true.
Proof.
  destruct c as [[] [] [] [] [] [] [] []]; vm_compute; intros H;
    first [reflexivity | discriminate].
Qed.

(** Extra X7: the name given to a domain's sheet has at most 31
    characters and none of the characters Excel refuses in a sheet name. *)
Theorem domain_sheet_name_valid domain :
  String.length (domain_sheet_name domain) <= 31 /\
  all_chars (fun c => negb (excel_forbidden c)) (domain_sheet_name domain) = true.
Proof.
  unfold domain_sheet_name. split.
  - apply substring_length.
  - apply substring_all_chars, filter_string_all, sheet_char_allowed.
Qed.

Lemma similarity_level_of_in s : In (similarity_level_of s) similarity_levels.
Proof.
  unfold similarity_level_of.
  destruct (qgt s (7 # 10)), (qgt s (1 # 2)), (qgt s (3 # 10)); simpl; tauto.
Qed.

Lemma similarity_levels_NoDup : NoDup similarity_levels.
Proof.
  repeat constructor; simpl; intuition discriminate.
Qed.

Lemma concat_map_nil {A B} (ls : list B) :
  concat (map (fun _ : B => @nil A) ls) = [].
Proof. induction ls; simpl; auto. Qed.

Lemma level_blocks_perm (x : SimPair) (F : string -> list SimPair) ls :
  NoDup ls -> In (similarity_level x) ls ->
  Permutation (x :: concat (map F ls))
    (concat (map (fun L => if String.eqb (similarity_level x) L then x :: F L else F L) ls)).
Proof.
  induction ls as [|L ls IH]; intros Hnd Hin; [destruct Hin|].
  apply NoDup_cons_iff in Hnd as [HL Hnd]. simpl.
  destruct (String.eqb_spec (similarity_level x) L) as [<-|Hne].
  - assert (Hm : map (fun L' => if String.eqb (similarity_level x) L' then x :: F L' else F L') ls
                 = map F ls).
    { apply map_ext_in. intros L' HL'. cbv beta.
      destruct (String.eqb_spec (similarity_level x) L') as [E|]; auto. rewrite <- E in HL'. contradiction. }
    rewrite Hm. reflexivity.
  - destruct Hin as [->|Hin]; [contradiction|].
    eapply perm_trans; [apply Permutation_middle|].
    apply Permutation_app_head. apply IH; auto.
Qed.

Lemma level_sheets_perm (l : list SimPair) (ls : list string) :
  NoDup ls -> (forall p, In p l -> In (similarity_level p) ls) ->
  Permutation l (concat (map (level_sheet l) ls)).
Proof.
  intros Hnd. unfold level_sheet. induction l as [|x l IH]; intros Hl.
  - simpl. rewrite concat_map_nil. constructor.
  - simpl. eapply perm_trans; [apply perm_skip, IH; intros p Hp; apply Hl; right; exact Hp|].
    apply level_blocks_perm; auto. apply Hl. left. reflexivity.
Qed.

(** Extra X8: the four level sheets of [create_similarity_excel] together
    hold every reported pair exactly once. *)
Theorem level_sheets_partition cm sort a df (Hsort : sort_contract sort) :
  let out := calculate_similarity cm sort a df in
  Permutation out (concat (map (level_sheet out) similarity_levels)).
Proof.
  intros out. apply level_sheets_perm; [apply similarity_levels_NoDup|].
  intros p Hp. destruct (calculate_similarity_In cm sort a df p Hsort Hp) as [M [i [j [_ [_ Hrow]]]]].
  apply pair_row_spec in Hrow as [_ [_ [-> _]]]. apply similarity_level_of_in.
Qed.

Lemma level_sheets_partition_witness :
  let out := calculate_similarity (fun _ => Some (cos_of [(0, 1, 9 # 10); (1, 2, 2 # 5)]))
               stable_desc_sort plain_analyzer sample_df3 in
  Permutation out (concat (map (level_sheet out) similarity_levels)).
Proof.
  exact (level_sheets_partition _ stable_desc_sort plain_analyzer sample_df3
           stable_desc_sort_contract).
Defined.

(** ** Extra properties: similarity *)

(** Extra X9: the similarity level is monotone in the score: a higher
    score never gets a level further down the list Very High, High,
    Medium, Low. *)
Theorem similarity_level_monotone s s' (Hle : (s <= s')%Q) :
  list_index (similarity_level_of s') similarity_levels
  <= list_index (similarity_level_of s) similarity_levels.
Proof.
  unfold similarity_level_of.
  destruct (qgt s' (7 # 10)) eqn:A1, (qgt s' (1 # 2)) eqn:A2, (qgt s' (3 # 10)) eqn:A3,
    (qgt s (7 # 10)) eqn:B1, (qgt s (1 # 2)) eqn:B2, (qgt s (3 # 10)) eqn:B3;
    simpl; try lia;
  repeat match goal with
  | H : qgt _ _ = true |- _ => apply qgt_spec in H
  | H : qgt _ _ = false |- _ =>
      let H' := fresh in
      assert (H' : ~ (qgt _ _ = true)) by (rewrite H; discriminate);
      rewrite qgt_spec in H'; apply Qnot_lt_le in H'; clear H
  end; lra.
Qed.

Lemma similarity_level_monotone_witness :
  (2 # 5 <= 4 # 5)%Q /\
  list_index (similarity_level_of (4 # 5)) similarity_levels
  <= list_index (similarity_level_of (2 # 5)) similarity_levels.
Proof.
  split; [vm_compute; discriminate|].
  apply similarity_level_monotone. vm_compute. discriminate.
Defined.

Lemma collect_pairs_below a df ids M ijs :
  (forall i j, In (i, j) ijs -> (M i j <= similarity_threshold a)%Q) ->
  collect_pairs a df ids M ijs = Some [].
Proof.
  induction ijs as [|[i j] ijs IH]; intros H; simpl; auto.
  unfold pair_row at 1.
  destruct (qgt (M i j) (similarity_threshold a)) eqn:G.
  - apply qgt_spec in G. exfalso. apply (Qle_not_lt _ _ (H i j (or_introl eq_refl))). exact G.
  - rewrite IH; auto. intros i' j' Hin. apply H. right. exact Hin.
Qed.

(** Extra X10: with a threshold of at least 1 (and cosines at most 1),
    [calculate_similarity] reports no pair. *)
Theorem threshold_at_least_one_reports_nothing cm sort a df
    (Ht : (1 <= similarity_threshold a)%Q)
    (Hcos : forall texts M i j, cm texts = Some M -> (M i j <= 1)%Q) :
  calculate_similarity cm sort a df = [].
Proof.
  unfold calculate_similarity, discovered_pairs.
  destruct (length (map fst (similarity_inputs df)) <? 2); auto.
  destruct (cm (map fst (similarity_inputs df))) as [M|] eqn:HM; auto.
  rewrite collect_pairs_below; auto.
  intros i j _. eapply Qle_trans; [apply (Hcos _ _ i j HM) | exact Ht].
Qed.

Lemma threshold_at_least_one_reports_nothing_witness :
  calculate_similarity (fun _ => Some (fun _ _ => 1%Q)) stable_desc_sort
    (set_similarity_threshold plain_analyzer 1) sample_df3 = [].
Proof.
  apply threshold_at_least_one_reports_nothing.
  - vm_compute. discriminate.
  - intros texts M i j H. inversion H. vm_compute. discriminate.
Defined.

Lemma collect_pairs_no_short_title a df ids M ijs :
  has_short_title df = false ->
  collect_pairs a df ids M ijs = None \/ collect_pairs a df ids M ijs = Some [].
Proof.
  intros Hs. induction ijs as [|[i j] ijs IH]; simpl; auto.
  assert (Hrow : pair_row a df ids M i j = None \/ pair_row a df ids M i j = Some None).
  { unfold pair_row, get_project_domains. rewrite Hs.
    destruct (qgt (M i j) (similarity_threshold a)); auto. }
  destruct Hrow as [-> | ->]; [auto|]. destruct IH as [-> | ->]; auto.
Qed.

(** Extra X11: on a frame without a [short_title] column,
    [calculate_similarity] always returns the empty table (the first pair
    above the threshold raises [KeyError] in [get_project_domains], which
    the [try] block turns into an empty result). *)
Theorem no_short_title_no_pairs cm sort a df (Hs : has_short_title df = false) :
  calculate_similarity cm sort a df = [].
Proof.
  unfold calculate_similarity, discovered_pairs.
  destruct (length (map fst (similarity_inputs df)) <? 2); auto.
  destruct (cm (map fst (similarity_inputs df))) as [M|]; auto.
  destruct (collect_pairs_no_short_title a df (map snd (similarity_inputs df)) M
              (index_pairs (length (map snd (similarity_inputs df)))) Hs) as [-> | ->]; auto.
Qed.

Lemma no_short_title_no_pairs_witness :
  calculate_similarity (fun _ => Some (fun _ _ => 9 # 10)) stable_desc_sort plain_analyzer
    {| has_short_title := false; has_primary_domain := false; rows := rows sample_df3 |} = [].
Proof. apply no_short_title_no_pairs. reflexivity. Defined.

Lemma NoDup_map_pair (i : nat) (l : list nat) : NoDup l -> NoDup (map (fun j => (i, j)) l).
Proof.
  induction l as [|j l IH]; intros H; simpl; constructor.
  - intros Hin. apply in_map_iff in Hin as [j' [E Hj']]. inversion E; subst.
    apply NoDup_cons_iff in H as [H _]. contradiction.
  - apply IH. apply NoDup_cons_iff in H as [_ H]. exact H.
Qed.

Lemma NoDup_flat_map_pairs (l : list nat) (g : nat -> list nat) :
  NoDup l -> (forall i, NoDup (g i)) ->
  NoDup (flat_map (fun i => map (fun j => (i, j)) (g i)) l).
Proof.
  induction l as [|i l IH]; intros Hl Hg; simpl; [constructor|].
  apply NoDup_cons_iff in Hl as [Hi Hl].
  apply NoDup_app; auto using NoDup_map_pair.
  intros [i' j] H1 H2. apply in_map_iff in H1 as [j' [E _]]. inversion E; subst.
  apply in_flat_map in H2 as [i'' [Hi'' H2]]. apply in_map_iff in H2 as [j'' [E2 _]].
  inversion E2; subst. contradiction.
Qed.

(** Extra X12: the double loop of [calculate_similarity] visits every
    index pair [i < j] of the texts exactly once, and no other pair. *)
Theorem index_pairs_exact n :
  NoDup (index_pairs n) /\ forall i j, In (i, j) (index_pairs n) <-> i < j < n.
Proof.
  split.
  - apply NoDup_flat_map_pairs; [apply seq_NoDup|]. intros i. apply seq_NoDup.
  - intros i j. split; [apply index_pairs_lt|]. intros H.
    unfold index_pairs. apply in_flat_map. exists i. split.
    + apply in_seq. lia.
    + apply in_map. apply in_seq. lia.
Qed.

Lemma first_keyword_domain_length tax text : length (first_keyword_domain tax text) = 1.
Proof.
  induction tax as [|[d kws] tax IH]; simpl; auto.
  destruct (existsb _ kws); auto.
Qed.

Lemma set_inter_length l1 l2 : length (set_inter l1 l2) <= length l1.
Proof.
  induction l1 as [|x l1 IH]; simpl; auto.
  destruct (existsb (String.eqb x) l2 && negb (existsb (String.eqb x) (set_inter l1 l2)));
    simpl; lia.
Qed.

(** Extra X13: every reported pair lists at most one overlapping domain. *)
Theorem overlap_at_most_one_domain cm sort a df p (Hsort : sort_contract sort)
    (Hp : In p (calculate_similarity cm sort a df)) :
  length (overlapping_domains p) <= 1.
Proof.
  destruct (calculate_similarity_In cm sort a df p Hsort Hp) as [M [i [j [_ [_ Hrow]]]]].
  apply pair_row_spec in Hrow as [_ [_ [_ [_ [_ [d1 [d2 [H1 [_ ->]]]]]]]]].
  eapply Nat.le_trans; [apply set_inter_length|].
  unfold get_project_domains in H1.
  destruct (has_short_title df); [|discriminate].
  destruct (find _ (rows df)); inversion H1; subst; simpl; auto.
  rewrite first_keyword_domain_length. auto.
Qed.

Lemma overlap_at_most_one_domain_witness :
  In sample_pair5 (calculate_similarity (fun _ => Some (cos_of [(0, 1, 1%Q)])) stable_desc_sort
                     plain_analyzer sample_df5) /\
  length (overlapping_domains sample_pair5) <= 1.
Proof.
  assert (H : In sample_pair5 (calculate_similarity (fun _ => Some (cos_of [(0, 1, 1%Q)]))
                                 stable_desc_sort plain_analyzer sample_df5))
    by (vm_compute; left; reflexivity).
  split; [exact H|].
  exact (overlap_at_most_one_domain _ stable_desc_sort plain_analyzer sample_df5 sample_pair5
           stable_desc_sort_contract H).
Defined.

(** ** Extra properties: the explanation *)

Lemma join_snoc sep l x :
  join sep (l ++ [x])%list = if is_nil l then x else join sep l ++ sep ++ x.
Proof.
  induction l as [|y l IH]; [reflexivity|].
  destruct l as [|z l]; [reflexivity|].
  cbn [app is_nil] in IH |- *.
  change (join sep (y :: z :: (l ++ [x]))%list)
    with (y ++ sep ++ join sep (z :: (l ++ [x]))%list).
  rewrite IH.
  change (join sep (y :: z :: l)) with (y ++ sep ++ join sep (z :: l)).
  rewrite !string_app_assoc. reflexivity.
Qed.

Lemma join_snoc_ex sep l x : exists pre, join sep (l ++ [x])%list = pre ++ x.
Proof.
  rewrite join_snoc. destruct (is_nil l); [exists ""; reflexivity|].
  exists (join sep l ++ sep). rewrite string_app_assoc. reflexivity.
Qed.

(** Extra X14: whatever the domains and texts, and in whatever order the
    sets are iterated, the explanation ends with the sentence of the
    score's band ("Very similar ...", "Similar approach ..." or "Some
    conceptual similarities ..."). *)
Theorem explanation_ends_with_band set_iter score ov t1 t2 :
  exists pre, generate_similarity_explanation set_iter score ov t1 t2
              = pre ++ similarity_band score ++ ".".
Proof.
  unfold generate_similarity_explanation. cbv zeta. rewrite app_assoc.
  match goal with |- context [join ". " (?L ++ [?x])%list] =>
    destruct (join_snoc_ex ". " L x) as [pre E]; rewrite E end.
  exists pre. apply string_app_assoc.
Qed.

Lemma set_inter_In x l1 l2 : In x (set_inter l1 l2) -> In x l1 /\ In x l2.
Proof.
  induction l1 as [|y l1 IH]; simpl; [tauto|].
  destruct (existsb (String.eqb y) l2 && negb (existsb (String.eqb y) (set_inter l1 l2))) eqn:E.
  - intros [<-|H].
    + apply andb_true_iff in E as [E _]. apply existsb_eqb_In in E. auto.
    + destruct (IH H); auto.
  - intros H. destruct (IH H); auto.
Qed.

Lemma filter_all_false {A} (f : A -> bool) l :
  (forall x, In x l -> f x = false) -> filter f l = [].
Proof.
  induction l as [|x l IH]; simpl; intros H; auto.
  rewrite H by auto. apply IH. auto.
Qed.

(** Extra X15: without overlapping domains, and when the two texts share
    no word longer than three characters outside the stop list, the
    explanation is the band sentence alone. *)
Theorem explanation_band_only set_iter score t1 t2
    (Hiter : forall l w, In w (set_iter l) -> In w l)
    (Hwords : forall w, In w (split_ws t1) -> In w (split_ws t2) ->
              String.length w <= 3 \/ In w explanation_stop_words) :
  generate_similarity_explanation set_iter score [] t1 t2 = similarity_band score ++ ".".
Proof.
  unfold generate_similarity_explanation. cbv zeta.
  rewrite filter_all_false; [reflexivity|].
  intros w Hw. apply Hiter, set_inter_In in Hw as [H1 H2].
  destruct (Hwords w H1 H2) as [Hl|Hs].
  - apply Nat.ltb_ge in Hl. rewrite Hl. reflexivity.
  - apply existsb_eqb_In in Hs. rewrite Hs. apply andb_false_r.
Qed.

Lemma explanation_band_only_witness :
  generate_similarity_explanation (fun l => l) (2 # 5) [] "the alpha" "the beta"
  = similarity_band (2 # 5) ++ ".".
Proof.
  apply explanation_band_only.
  - intros l w H. exact H.
  - intros w H1 H2. vm_compute in H1, H2.
    destruct H1 as [<-|[<-|[]]]; [left; vm_compute; lia|].
    destruct H2 as [H|[H|[]]]; discriminate.
Defined.

(** ** Extra properties: domain resolution *)

Lemma categorize_row_same_result gen1 gen2 a df idx row :
  gemini_result_of gen1 a row = gemini_result_of gen2 a row ->
  categorize_row gen1 a df idx row = categorize_row gen2 a df idx row.
Proof. intros H. unfold categorize_row, resolve_domains. rewrite H. reflexivity. Qed.

(** Extra X16: the AI adapter is consulted only when the model is set and
    both the title and the scope are non-empty: otherwise the record's
    result is the same whatever the adapter would answer. *)
Theorem gemini_consulted_only_with_model_and_text gen1 gen2 a df idx row
    (H : gemini_model a = false \/ project_title row = "" \/ project_scope row = "") :
  categorize_row gen1 a df idx row = categorize_row gen2 a df idx row.
Proof.
  apply categorize_row_same_result. unfold gemini_result_of.
  destruct H as [H|[H|H]]; rewrite H;
    destruct (gemini_model a); try destruct (truthy (project_title row)); reflexivity.
Qed.

Lemma gemini_consulted_only_with_model_and_text_witness :
  categorize_row no_gemini gemini_analyzer (mk_df [mk_row "P0" "" "An online shop" None]) 0
    (mk_row "P0" "" "An online shop" None)
  = categorize_row (gemini_answer [("Web Development", 9%Z)] "Web Development")
      gemini_analyzer (mk_df [mk_row "P0" "" "An online shop" None]) 0
      (mk_row "P0" "" "An online shop" None).
Proof.
  apply gemini_consulted_only_with_model_and_text. right; left; reflexivity.
Defined.

(** Extra X17: once the AI step has produced a domain for a record, the
    keyword lists of the taxonomy are not consulted: replacing them (with
    the same domain names, which the prompt lists) leaves the record's
    result unchanged. *)
Theorem ai_result_ignores_keyword_lists gen a df idx row (tax : Taxonomy)
    (Hkeys : map fst tax = map fst (domain_keywords a))
    (Hai : fst (gemini_stage (gemini_result_of gen a row) ([], [])) <> []) :
  categorize_row gen (set_domain_keywords a tax) df idx row = categorize_row gen a df idx row.
Proof.
  assert (Hg : gemini_result_of gen (set_domain_keywords a tax) row = gemini_result_of gen a row)
    by reflexivity.
  unfold categorize_row, resolve_domains. rewrite Hg. cbv zeta.
  destruct (is_nil (fst (gemini_stage (gemini_result_of gen a row) ([], [])))) eqn:E.
  - exfalso. apply Hai. destruct (fst _); [reflexivity | discriminate].
  - reflexivity.
Qed.

Lemma ai_result_ignores_keyword_lists_witness :
  categorize_row (gemini_answer [("E-commerce & Business", 9%Z)] "E-commerce & Business")
    (set_domain_keywords gemini_analyzer (map (fun dk => (fst dk, [])) DOMAIN_KEYWORDS))
    (mk_df [mk_row "P0" "Shop" "An online store" None]) 0 (mk_row "P0" "Shop" "An online store" None)
  = categorize_row (gemini_answer [("E-commerce & Business", 9%Z)] "E-commerce & Business")
      gemini_analyzer (mk_df [mk_row "P0" "Shop" "An online store" None]) 0
      (mk_row "P0" "Shop" "An online store" None).
Proof.
  apply ai_result_ignores_keyword_lists; [vm_compute; reflexivity | vm_compute; discriminate].
Defined.

Lemma lower_length s : String.length (lower s) = String.length s.
Proof. induction s; simpl; auto. Qed.

Lemma py_count_blank kw : 2 <= String.length kw -> py_count " " (lower kw) = 0.
Proof.
  intros H. rewrite <- lower_length in H. unfold py_count.
  destruct (lower kw) as [|c [|d k]]; simpl in H; try lia.
  cbn [String.eqb count_skip String.prefix].
  destruct (ascii_dec c " "); reflexivity.
Qed.

Lemma blank_keyword_sum kws :
  forallb (fun kw => 2 <=? String.length kw) kws = true ->
  list_sum (map (fun kw => py_count " " (lower kw)) kws) = 0.
Proof.
  induction kws as [|kw kws IH]; intros H; [reflexivity|].
  cbn [forallb] in H. apply andb_true_iff in H as [H1 H2]. apply Nat.leb_le in H1.
  change (py_count " " (lower kw) + list_sum (map (fun kw => py_count " " (lower kw)) kws) = 0).
  rewrite py_count_blank, IH; auto.
Qed.

Lemma keyword_stage_blank (tax : Taxonomy) :
  forallb (fun dk => forallb (fun kw => 2 <=? String.length kw) (snd dk)) tax = true ->
  keyword_stage tax "" "" ([], []) = ([], []).
Proof.
  unfold keyword_stage. change (keyword_text "" "") with " ".
  induction tax as [|[d kws] tax IH]; intros H; [reflexivity|].
  cbn [forallb snd] in H. apply andb_true_iff in H as [Hk H].
  cbn [fold_left].
  assert (Hs : keyword_domain_step " " ([], []) (d, kws) = ([], [])).
  { unfold keyword_domain_step. rewrite keyword_score_spec, (blank_keyword_sum kws Hk).
    reflexivity. }
  rewrite Hs. apply IH, H.
Qed.

(** Extra X18: a record with empty title and scope and no usable manual
    label gets the default domain "Other" alone (with score 1 and method
    "default"), provided every keyword of the taxonomy has at least two
    characters, as those of the built-in taxonomy do; its record-level
    method is "keyword_matching". *)
Theorem blank_record_defaults_to_other gen a df idx row
    (Ht : project_title row = "") (Hs : project_scope row = "")
    (Hkw : forallb (fun dk => forallb (fun kw => 2 <=? String.length kw) (snd dk))
             (domain_keywords a) = true)
    (Hlabel : has_primary_domain df = false \/
              forall l, primary_domain row = Some l -> strip l = "") :
  let r := categorize_row gen a df idx row in
  dr_domains r = ["Other"] /\ dr_primary_domain r = "Other" /\
  confidence_scores r =
    [("Other", {| ce_score := 1; ce_evidence := Keywords []; ce_method := "default" |})] /\
  categorization_method r = "keyword_matching".
Proof.
  assert (Hg : gemini_result_of gen a row = None).
  { unfold gemini_result_of. rewrite Ht. destruct (gemini_model a); reflexivity. }
  assert (He : existing_stage df row ([], []) = ([], [])).
  { unfold existing_stage. cbn [is_nil andb]. destruct Hlabel as [Hp|Hl].
    - rewrite Hp. reflexivity.
    - destruct (has_primary_domain df); [|reflexivity].
      destruct (primary_domain row) as [l|] eqn:E; [|reflexivity].
      rewrite (Hl l eq_refl). reflexivity. }
  unfold categorize_row, resolve_domains. rewrite Hg. cbv zeta. cbn [gemini_stage fst is_nil].
  rewrite Ht, Hs, (keyword_stage_blank _ Hkw), He.
  repeat split.
Qed.

Lemma blank_record_defaults_to_other_witness :
  let r := categorize_row no_gemini plain_analyzer (mk_df [mk_row "P0" "" "" (Some " ")]) 0
             (mk_row "P0" "" "" (Some " ")) in
  dr_domains r = ["Other"] /\ dr_primary_domain r = "Other" /\
  confidence_scores r =
    [("Other", {| ce_score := 1; ce_evidence := Keywords []; ce_method := "default" |})] /\
  categorization_method r = "keyword_matching".
Proof.
  apply blank_record_defaults_to_other; [reflexivity | reflexivity | vm_compute; reflexivity |].
  right. intros l H. inversion H. reflexivity.
Defined.
